(** * rod-mcp-server: a shallow embedding of [main.go]

    The server reads JSON-RPC requests from standard input, routes them by
    method name and drives one headless browser through the [rod] library.
    Everything the program owns (the [Server] struct, the routing, the eight
    tools, the cleanup) is transcribed below function by function.  What it
    does not own (the browser behind [rod], [encoding/json], [fmt], [os],
    [time]) is modelled as follows:

    - every call that leaves the process is appended to a [trace] of
      [Event]s, and its answer is read from an oracle [Env] applied to the
      trace so far, so an answer may depend on the whole history;
    - [rod.Page] objects live in a store indexed by address, because
      [Page.Timeout] hands back a fresh object and the receiver is shared;
    - a Go panic is an outcome of its own ([Panics]), distinct from a
      returned [error]. *)

From Stdlib Require Import ZArith String List Bool Lia.
From Stdlib Require Import Floats.PrimFloat Floats.SpecFloat Floats.FloatOps.
From stdpp Require Import gmap strings list pretty.

Set Warnings "-register-all".
Local Open Scope string_scope.
Local Open Scope list_scope.
Local Open Scope Z_scope.

(** ** Values *)

(** What [encoding/json] stores into an [interface{}]: nil, bool, float64,
    string, []interface{} or map[string]interface{}. *)
Inductive GoValue : Type :=
| VNil
| VBool (b : bool)
| VFloat64 (x : float)
| VString (s : string)
| VSlice (l : list GoValue)
| VMap (m : list (string * GoValue)).

(** [map[string]interface{}]; indexing a missing key (or a nil map) yields the
    nil interface, which is [None] here. *)
Abbreviation Args := (gmap string GoValue).

(** The comma-ok type assertions [v.(string)], [v.(bool)], [v.(float64)]. *)
Definition assert_string (v : option GoValue) : option string :=
  match v with Some (VString s) => Some s | _ => None end.

Definition assert_bool (v : option GoValue) : option bool :=
  match v with Some (VBool b) => Some b | _ => None end.

Definition assert_float64 (v : option GoValue) : option float :=
  match v with Some (VFloat64 x) => Some x | _ => None end.

(** Go's [error], carried by its message. *)
Abbreviation error := string (only parsing).

Inductive res (A : Type) : Type :=
| OK (a : A)
| Fail (err : error).
Arguments OK {A} a.
Arguments Fail {A} err.

(** ** int64 and [time.Duration] *)

Definition wrap64 (z : Z) : Z := (z + 2 ^ 63) mod 2 ^ 64 - 2 ^ 63.

Definition int64_min : Z := - 2 ^ 63.

(** The conversion [int64(x)] of a float64: truncation toward zero.  Outside
    the int64 range the Go specification leaves the result to the
    implementation; amd64 yields the smallest int64. *)
Definition float64_to_int64 (x : float) : Z :=
  match Prim2SF x with
  | S754_zero _ => 0
  | S754_finite s m e =>
      let mag := if 0 <=? e then Z.shiftl (Z.pos m) e else Z.shiftr (Z.pos m) (- e) in
      let v := if s then - mag else mag in
      if (int64_min <=? v) && (v <? 2 ^ 63) then v else int64_min
  | _ => int64_min
  end.

Definition time_Second : Z := 1000000000.

(** [time.Duration(timeout) * time.Second], in nanoseconds. *)
Definition seconds_to_Duration (timeout : float) : Z :=
  wrap64 (float64_to_int64 timeout * time_Second).

(** ** Protocol types *)

(** A [json.RawMessage]: the JSON value the member spells, [None] when the
    member is absent.  The program never looks inside; it hands the message to
    [json.Unmarshal]. *)
Abbreviation RawMessage := (option GoValue) (only parsing).

Record MCPRequest : Type := {
  JSONRPC : string;
  ID : GoValue;
  Method : string;
  Params : RawMessage
}.

Record MCPError : Type := {
  Code : Z;
  Message : string
}.

Record Schema : Type := {
  properties : list (string * (string * string));
  required : option (list string)
}.

Record Tool : Type := {
  Name : string;
  Description : string;
  InputSchema : Schema
}.

(** The three shapes the [Result] field takes in the source. *)
Inductive ResultPayload : Type :=
| InitializeResult (protocolVersion serverName serverVersion : string)
| ToolsResult (tools : list Tool)
| ContentResult (text : string).

Record MCPResponse : Type := {
  RespJSONRPC : string;
  RespID : GoValue;
  Result : option ResultPayload;
  Error : option MCPError
}.

(** ** The world outside the process *)

Abbreviation PagePtr := nat (only parsing).
Abbreviation Element := nat (only parsing).

Record Browser : Type := { ControlURL : string }.

(** A [rod.Page] object: the browser target it drives and the timeouts its
    context carries, innermost first.  A page opened by [MustPage] carries
    none. *)
Record PageObj : Type := {
  target : nat;
  timeouts : list Z
}.

Inductive Event : Type :=
| EvLookPath
| EvLaunch (bin : string)
| EvConnect (u : string)
| EvNewPage (b : Browser)
| EvNavigate (p : PagePtr) (ctx : list Z) (url : string)
| EvWaitLoad (p : PagePtr) (ctx : list Z)
| EvElement (p : PagePtr) (ctx : list Z) (selector : string)
| EvClick (e : Element) (button : string) (clickCount : Z)
| EvAttribute (e : Element) (name : string)
| EvText (e : Element)
| EvSelectAllText (e : Element)
| EvInput (e : Element) (text : string)
| EvEval (p : PagePtr) (ctx : list Z) (script : string)
| EvScreenshot (p : PagePtr) (ctx : list Z) (fullPage : bool)
| EvNow
| EvMkdirAll (dir : string) (perm : Z)
| EvWriteFile (path : string) (data : string) (perm : Z)
| EvPageClose (p : PagePtr)
| EvBrowserClose (b : Browser)
| EvStderr (msg : string).

(** The oracle.  Each field answers one kind of call; its argument is the
    trace up to and including that call.  An answer stands for a call that
    returns.  A call that never returns has no answer here: rod's
    [Page.Element] retries until an element matches or the page's context
    ends, so on a page without timeout a lookup that matches nothing does not
    come back.  Runs with such a call are outside the model; what is stated
    about the end of a request or of the process is stated of the runs in
    which every call returns. *)
Record Env : Type := {
  (* launcher, rod.Browser *)
  LookPath : list Event -> string;
  Launch : list Event -> option string;
  Connect : list Event -> bool;
  NewPage : list Event -> option nat;
  (* rod.Page, rod.Element *)
  Navigate : list Event -> option error;
  WaitLoad : list Event -> option error;
  FindElement : list Event -> res Element;
  Click : list Event -> option error;
  Attribute : list Event -> res (option string);
  Text : list Event -> res string;
  SelectAllText : list Event -> option error;
  Input : list Event -> option error;
  Eval_ : list Event -> res GoValue;
  Screenshot : list Event -> res string;
  PageClose : list Event -> option error;
  BrowserClose : list Event -> option error;
  (* time, os, path/filepath *)
  Now_Unix : list Event -> Z;
  TempDir : string;
  Join : string -> string -> string;
  WriteFile : list Event -> option error;
  (* encoding/json, fmt *)
  Unmarshal : RawMessage -> res (string * Args);
  fmt_float64 : float -> string;
  fmt_value : GoValue -> string;
  (* the encoder on standard output: asked with the trace and the responses
     written so far *)
  Write : list Event -> list MCPResponse -> MCPResponse -> option error
}.

(** ** Server state *)

Record Server : Type := {
  browser : option Browser;
  page : option PagePtr
}.

Record State : Type := {
  srv : Server;
  pages : list PageObj;
  trace : list Event;
  stdout : list MCPResponse
}.

Definition set_srv (s : Server) (st : State) : State :=
  {| srv := s; pages := pages st; trace := trace st; stdout := stdout st |}.

Definition set_pages (h : list PageObj) (st : State) : State :=
  {| srv := srv st; pages := h; trace := trace st; stdout := stdout st |}.

Definition set_trace (t : list Event) (st : State) : State :=
  {| srv := srv st; pages := pages st; trace := t; stdout := stdout st |}.

Definition set_stdout (o : list MCPResponse) (st : State) : State :=
  {| srv := srv st; pages := pages st; trace := trace st; stdout := o |}.

(** ** A state monad with panics *)

Inductive Outcome (A : Type) : Type :=
| Returns (a : A) (st : State)
| Panics (st : State).
Arguments Returns {A} a st.
Arguments Panics {A} st.

Definition M (A : Type) : Type := State -> Outcome A.

Definition ret {A} (a : A) : M A := fun st => Returns a st.

Definition bind {A B} (m : M A) (k : A -> M B) : M B :=
  fun st => match m st with
            | Returns a st' => k a st'
            | Panics st' => Panics st'
            end.

Definition panic {A} : M A := fun st => Panics st.

Notation "x <- m ;; k" := (bind m (fun x => k))
  (at level 100, m at next level, right associativity).
Notation "m ;;; k" := (bind m (fun _ => k))
  (at level 100, right associativity).

Definition get : M State := fun st => Returns st st.

Definition modify (f : State -> State) : M unit := fun st => Returns tt (f st).

(** Record a call and hand back the trace the oracle is asked about. *)
Definition emit (ev : Event) : M (list Event) :=
  fun st => let t := trace st ++ [ev] in Returns t (set_trace t st).

(** Reading through a [*rod.Page]; a nil or dangling pointer panics. *)
Definition deref (p : option PagePtr) : M (PagePtr * PageObj) :=
  fun st => match p with
            | Some a => match pages st !! a with
                        | Some o => Returns (a, o) st
                        | None => Panics st
                        end
            | None => Panics st
            end.

Definition alloc (o : PageObj) : M PagePtr :=
  fun st => Returns (length (pages st)) (set_pages (pages st ++ [o]) st).

(** ** The program *)

Section Program.

Variable E : Env.

(** *** Calls into [launcher] and [rod] *)

Definition launcher_LookPath : M string :=
  h <- emit EvLookPath ;; ret (LookPath E h).

Definition MustLaunch (bin : string) : M string :=
  h <- emit (EvLaunch bin) ;;
  match Launch E h with
  | Some u => ret u
  | None => panic
  end.

Definition MustConnect (u : string) : M Browser :=
  h <- emit (EvConnect u) ;;
  if Connect E h then ret {| ControlURL := u |} else panic.

Definition MustPage (b : Browser) : M PagePtr :=
  h <- emit (EvNewPage b) ;;
  match NewPage E h with
  | Some t => alloc {| target := t; timeouts := [] |}
  | None => panic
  end.

(** [Page.Timeout] "returns a clone with the specified total timeout of all
    chained sub-operations" (rod): the clone's context carries the extra
    timeout, the receiver keeps its own context. *)
Definition Page_Timeout (p : option PagePtr) (d : Z) : M PagePtr :=
  po <- deref p ;;
  alloc {| target := target (snd po); timeouts := d :: timeouts (snd po) |}.

Definition Page_Navigate (p : option PagePtr) (url : string) : M (option error) :=
  po <- deref p ;;
  h <- emit (EvNavigate (fst po) (timeouts (snd po)) url) ;;
  ret (Navigate E h).

Definition Page_WaitLoad (p : option PagePtr) : M (option error) :=
  po <- deref p ;;
  h <- emit (EvWaitLoad (fst po) (timeouts (snd po))) ;;
  ret (WaitLoad E h).

Definition Page_Element (p : option PagePtr) (selector : string) : M (res Element) :=
  po <- deref p ;;
  h <- emit (EvElement (fst po) (timeouts (snd po)) selector) ;;
  ret (FindElement E h).

Definition Page_Eval (p : option PagePtr) (script : string) : M (res GoValue) :=
  po <- deref p ;;
  h <- emit (EvEval (fst po) (timeouts (snd po)) script) ;;
  ret (Eval_ E h).

Definition Page_Screenshot (p : option PagePtr) (fullPage : bool) : M (res string) :=
  po <- deref p ;;
  h <- emit (EvScreenshot (fst po) (timeouts (snd po)) fullPage) ;;
  ret (Screenshot E h).

Definition Page_Close (p : PagePtr) : M (option error) :=
  h <- emit (EvPageClose p) ;; ret (PageClose E h).

Definition Browser_Close (b : Browser) : M (option error) :=
  h <- emit (EvBrowserClose b) ;; ret (BrowserClose E h).

Definition Element_Click (e : Element) (button : string) (clickCount : Z)
  : M (option error) :=
  h <- emit (EvClick e button clickCount) ;; ret (Click E h).

Definition Element_Attribute (e : Element) (name : string) : M (res (option string)) :=
  h <- emit (EvAttribute e name) ;; ret (Attribute E h).

Definition Element_Text (e : Element) : M (res string) :=
  h <- emit (EvText e) ;; ret (Text E h).

Definition Element_SelectAllText (e : Element) : M (option error) :=
  h <- emit (EvSelectAllText e) ;; ret (SelectAllText E h).

Definition Element_Input (e : Element) (text : string) : M (option error) :=
  h <- emit (EvInput e text) ;; ret (Input E h).

Definition time_Now_Unix : M Z :=
  h <- emit EvNow ;; ret (Now_Unix E h).

Definition os_MkdirAll (dir : string) (perm : Z) : M unit :=
  h <- emit (EvMkdirAll dir perm) ;; ret tt.

Definition os_WriteFile (path data : string) (perm : Z) : M (option error) :=
  h <- emit (EvWriteFile path data perm) ;; ret (WriteFile E h).

(** The receiver's fields. *)
Definition s_browser : M (option Browser) := st <- get ;; ret (browser (srv st)).
Definition s_page : M (option PagePtr) := st <- get ;; ret (page (srv st)).

Definition set_browser (b : option Browser) : M unit :=
  modify (fun st => set_srv {| browser := b; page := page (srv st) |} st).

Definition set_page (p : option PagePtr) : M unit :=
  modify (fun st => set_srv {| browser := browser (srv st); page := p |} st).

(** [proto.InputMouseButtonLeft] *)
Definition proto_InputMouseButtonLeft : string := "left".

(** File modes, written in octal in the source. *)
Definition mode_0755 : Z := 493.
Definition mode_0644 : Z := 420.

(** *** [initBrowser] *)

Definition initBrowser : M (option error) :=
  path <- launcher_LookPath ;;
  u <- MustLaunch path ;;
  b <- MustConnect u ;;
  set_browser (Some b) ;;;
  b' <- s_browser ;;
  match b' with
  | None => panic
  | Some b' =>
      p <- MustPage b' ;;
      set_page (Some p) ;;;
      ret None
  end.

(** *** The eight tools *)

Definition navigate (args : Args) : M (res string) :=
  match assert_string (args !! "url") with
  | None => ret (Fail "url must be a string")
  | Some url =>
      p <- s_page ;;
      err <- Page_Navigate p url ;;
      match err with
      | Some err => ret (Fail err)
      | None =>
          p <- s_page ;;
          err <- Page_WaitLoad p ;;
          match err with
          | Some err => ret (Fail err)
          | None => ret (OK ("Successfully navigated to " +:+ url))
          end
      end
  end.

Definition click (args : Args) : M (res string) :=
  match assert_string (args !! "selector") with
  | None => ret (Fail "selector must be a string")
  | Some selector =>
      p <- s_page ;;
      elem <- Page_Element p selector ;;
      match elem with
      | Fail _ => ret (Fail ("element not found: " +:+ selector))
      | OK elem =>
          err <- Element_Click elem proto_InputMouseButtonLeft 1 ;;
          match err with
          | Some err => ret (Fail err)
          | None => ret (OK ("Successfully clicked " +:+ selector))
          end
      end
  end.

Definition screenshot (args : Args) : M (res string) :=
  filename <-
    match assert_string (args !! "filename") with
    | Some f =>
        if String.eqb f "" then
          n <- time_Now_Unix ;; ret ("screenshot_" +:+ pretty n +:+ ".png")
        else ret f
    | None => n <- time_Now_Unix ;; ret ("screenshot_" +:+ pretty n +:+ ".png")
    end ;;
  let fullPage :=
    match assert_bool (args !! "fullPage") with
    | Some fp => fp
    | None => false
    end in
  let screenshotDir := Join E (TempDir E) "rod-screenshots" in
  os_MkdirAll screenshotDir mode_0755 ;;;
  let path := Join E screenshotDir filename in
  p <- s_page ;;
  data <- Page_Screenshot p fullPage ;;
  match data with
  | Fail err => ret (Fail err)
  | OK data =>
      err <- os_WriteFile path data mode_0644 ;;
      match err with
      | Some err => ret (Fail err)
      | None => ret (OK ("Screenshot saved to " +:+ path))
      end
  end.

Definition getAttribute (args : Args) : M (res string) :=
  match assert_string (args !! "selector") with
  | None => ret (Fail "selector must be a string")
  | Some selector =>
      match assert_string (args !! "attribute") with
      | None => ret (Fail "attribute must be a string")
      | Some attribute =>
          p <- s_page ;;
          elem <- Page_Element p selector ;;
          match elem with
          | Fail _ => ret (Fail ("element not found: " +:+ selector))
          | OK elem =>
              value <- Element_Attribute elem attribute ;;
              match value with
              | Fail err => ret (Fail err)
              | OK None =>
                  ret (OK ("Attribute '" +:+ attribute +:+ "' not found on " +:+ selector))
              | OK (Some value) =>
                  ret (OK ("Attribute '" +:+ attribute +:+ "' on " +:+ selector
                           +:+ " = '" +:+ value +:+ "'"))
              end
          end
      end
  end.

Definition getText (args : Args) : M (res string) :=
  match assert_string (args !! "selector") with
  | None => ret (Fail "selector must be a string")
  | Some selector =>
      p <- s_page ;;
      elem <- Page_Element p selector ;;
      match elem with
      | Fail _ => ret (Fail ("element not found: " +:+ selector))
      | OK elem =>
          text <- Element_Text elem ;;
          match text with
          | Fail err => ret (Fail err)
          | OK text =>
              ret (OK ("Text content of " +:+ selector +:+ ": '" +:+ text +:+ "'"))
          end
      end
  end.

(** The two [s.page.Timeout(...)] statements drop the page they are handed;
    the deferred one runs after the result has been computed. *)
Definition waitFor (args : Args) : M (res string) :=
  match assert_string (args !! "selector") with
  | None => ret (Fail "selector must be a string")
  | Some selector =>
      let timeout :=
        match assert_float64 (args !! "timeout") with
        | Some t => t
        | None => 30%float
        end in
      p <- s_page ;;
      Page_Timeout p (seconds_to_Duration timeout) ;;;
      p <- s_page ;;
      elem <- Page_Element p selector ;;
      let result :=
        match elem with
        | Fail _ =>
            Fail ("element " +:+ selector +:+ " did not appear within "
                  +:+ fmt_float64 E timeout +:+ " seconds")
        | OK _ => OK ("Element " +:+ selector +:+ " appeared")
        end in
      p <- s_page ;;
      Page_Timeout p 0 ;;;
      ret result
  end.

Definition eval (args : Args) : M (res string) :=
  match assert_string (args !! "script") with
  | None => ret (Fail "script must be a string")
  | Some script =>
      p <- s_page ;;
      result <- Page_Eval p script ;;
      match result with
      | Fail err => ret (Fail err)
      | OK value => ret (OK ("JavaScript result: " +:+ fmt_value E value))
      end
  end.

Definition fill (args : Args) : M (res string) :=
  match assert_string (args !! "selector") with
  | None => ret (Fail "selector must be a string")
  | Some selector =>
      match assert_string (args !! "text") with
      | None => ret (Fail "text must be a string")
      | Some text =>
          p <- s_page ;;
          elem <- Page_Element p selector ;;
          match elem with
          | Fail _ => ret (Fail ("element not found: " +:+ selector))
          | OK elem =>
              err <- Element_SelectAllText elem ;;
              match err with
              | Some err => ret (Fail err)
              | None =>
                  err <- Element_Input elem text ;;
                  match err with
                  | Some err => ret (Fail err)
                  | None =>
                      ret (OK ("Filled " +:+ selector +:+ " with '" +:+ text +:+ "'"))
                  end
              end
          end
      end
  end.

(** *** The catalog *)

Definition getTools : list Tool :=
  [ {| Name := "rod_navigate";
       Description := "Navigate to a URL in the browser";
       InputSchema :=
         {| properties := [("url", ("string", "The URL to navigate to"))];
            required := Some ["url"] |} |};
    {| Name := "rod_click";
       Description := "Click an element by CSS selector";
       InputSchema :=
         {| properties :=
              [("selector", ("string", "CSS selector for the element to click"))];
            required := Some ["selector"] |} |};
    {| Name := "rod_screenshot";
       Description := "Take a screenshot of the current page";
       InputSchema :=
         {| properties :=
              [("filename",
                ("string", "Optional filename for the screenshot (default: timestamp)"));
               ("fullPage",
                ("boolean", "Capture full page or just viewport (default: false)"))];
            required := None |} |};
    {| Name := "rod_get_attribute";
       Description :=
         "Get an HTML attribute value from an element (perfect for HTMX-R state)";
       InputSchema :=
         {| properties :=
              [("selector", ("string", "CSS selector for the element"));
               ("attribute",
                ("string", "Attribute name to read (e.g., 'data-state-loading')"))];
            required := Some ["selector"; "attribute"] |} |};
    {| Name := "rod_get_text";
       Description := "Get the text content of an element";
       InputSchema :=
         {| properties := [("selector", ("string", "CSS selector for the element"))];
            required := Some ["selector"] |} |};
    {| Name := "rod_wait_for";
       Description := "Wait for an element to appear";
       InputSchema :=
         {| properties :=
              [("selector", ("string", "CSS selector for the element to wait for"));
               ("timeout", ("number", "Timeout in seconds (default: 30)"))];
            required := Some ["selector"] |} |};
    {| Name := "rod_eval";
       Description := "Execute JavaScript in the page context";
       InputSchema :=
         {| properties := [("script", ("string", "JavaScript code to execute"))];
            required := Some ["script"] |} |};
    {| Name := "rod_fill";
       Description := "Fill an input field with text";
       InputSchema :=
         {| properties :=
              [("selector", ("string", "CSS selector for the input element"));
               ("text", ("string", "Text to fill into the input"))];
            required := Some ["selector"; "text"] |} |} ].

(** *** Routing *)

Definition errorResponse (req : MCPRequest) (code : Z) (msg : string) : MCPResponse :=
  {| RespJSONRPC := "2.0"; RespID := ID req; Result := None;
     Error := Some {| Code := code; Message := msg |} |}.

Definition resultResponse (req : MCPRequest) (r : ResultPayload) : MCPResponse :=
  {| RespJSONRPC := "2.0"; RespID := ID req; Result := Some r; Error := None |}.

(** The cases of the [switch params.Name]. *)
Inductive ToolCase : Type :=
| rod_navigate | rod_click | rod_screenshot | rod_get_attribute
| rod_get_text | rod_wait_for | rod_eval | rod_fill.

Definition toolCase (name : string) : option ToolCase :=
  if String.eqb name "rod_navigate" then Some rod_navigate
  else if String.eqb name "rod_click" then Some rod_click
  else if String.eqb name "rod_screenshot" then Some rod_screenshot
  else if String.eqb name "rod_get_attribute" then Some rod_get_attribute
  else if String.eqb name "rod_get_text" then Some rod_get_text
  else if String.eqb name "rod_wait_for" then Some rod_wait_for
  else if String.eqb name "rod_eval" then Some rod_eval
  else if String.eqb name "rod_fill" then Some rod_fill
  else None.

Definition runTool (t : ToolCase) (args : Args) : M (res string) :=
  match t with
  | rod_navigate => navigate args
  | rod_click => click args
  | rod_screenshot => screenshot args
  | rod_get_attribute => getAttribute args
  | rod_get_text => getText args
  | rod_wait_for => waitFor args
  | rod_eval => eval args
  | rod_fill => fill args
  end.

Definition handleToolCall (req : MCPRequest) : M MCPResponse :=
  match Unmarshal E (Params req) with
  | Fail err => ret (errorResponse req (-32602) ("Invalid params: " +:+ err))
  | OK (name, arguments) =>
      b <- s_browser ;;
      err <- match b with
             | None => initBrowser
             | Some _ => ret None
             end ;;
      match err with
      | Some err =>
          ret (errorResponse req (-32603) ("Failed to initialize browser: " +:+ err))
      | None =>
          match toolCase name with
          | None => ret (errorResponse req (-32601) ("Unknown tool: " +:+ name))
          | Some t =>
              r <- runTool t arguments ;;
              match r with
              | Fail err => ret (errorResponse req (-32603) err)
              | OK result => ret (resultResponse req (ContentResult result))
              end
          end
      end
  end.

Definition handleRequest (req : MCPRequest) : M MCPResponse :=
  if String.eqb (Method req) "initialize" then
    ret (resultResponse req (InitializeResult "2024-11-05" "rod-mcp-server" "1.0.0"))
  else if String.eqb (Method req) "tools/list" then
    ret (resultResponse req (ToolsResult getTools))
  else if String.eqb (Method req) "tools/call" then
    handleToolCall req
  else
    ret (errorResponse req (-32601) ("Method not found: " +:+ Method req)).

(** *** [cleanup] *)

Definition cleanup : M unit :=
  p <- s_page ;;
  match p with
  | Some p => Page_Close p ;;; ret tt
  | None => ret tt
  end ;;;
  b <- s_browser ;;
  match b with
  | Some b => Browser_Close b ;;; ret tt
  | None => ret tt
  end.

End Program.

(** ** The request stream *)

(** What [json.Decoder] makes of the bytes on standard input, one unit per
    [Decode] call:
    - [UValue req]: a complete JSON value that unmarshals into [req];
    - [UMismatch]: a complete JSON value that does not fit [MCPRequest]
      (an [UnmarshalTypeError]); the value is consumed;
    - [USyntax]: bytes the scanner rejects (a [SyntaxError]).
    The stream ends either between values or inside one. *)
Inductive Unit : Type :=
| UValue (req : MCPRequest)
| UMismatch
| USyntax.

Inductive DecodeError : Type :=
| io_EOF
| io_ErrUnexpectedEOF
| SyntaxError
| UnmarshalTypeError.

Record Decoder : Type := {
  pending : list Unit;
  truncated : bool;
  err : option DecodeError
}.

Definition NewDecoder (input : list Unit) (cut : bool) : Decoder :=
  {| pending := input; truncated := cut; err := None |}.

(** [Decoder.Decode]: an error met while reading a value is stored in the
    decoder and returned by every later call; an error met while unmarshalling
    a value that was read in full is not stored. *)
Definition Decode (dec : Decoder) : (MCPRequest + DecodeError) * Decoder :=
  match err dec with
  | Some e => (inr e, dec)
  | None =>
      match pending dec with
      | UValue req :: rest =>
          (inl req, {| pending := rest; truncated := truncated dec; err := None |})
      | UMismatch :: rest =>
          (inr UnmarshalTypeError,
           {| pending := rest; truncated := truncated dec; err := None |})
      | USyntax :: rest =>
          (inr SyntaxError,
           {| pending := USyntax :: rest; truncated := truncated dec;
              err := Some SyntaxError |})
      | [] =>
          let e := if truncated dec then io_ErrUnexpectedEOF else io_EOF in
          (inr e, {| pending := []; truncated := truncated dec; err := Some e |})
      end
  end.

(** ** [main] *)

Definition initial : State :=
  {| srv := {| browser := None; page := None |};
     pages := []; trace := []; stdout := [] |}.

Definition newline : string := String (Ascii.ascii_of_nat 10) EmptyString.

(** [encoder.Encode(resp)] and the [if] around it: a response that is written
    joins the output; when the write fails the error is printed on standard
    error, nothing joins the output, and the loop goes on. *)
Definition Encode (E : Env) (resp : MCPResponse) (st : State) : State :=
  match Write E (trace st) (stdout st) resp with
  | None => set_stdout (stdout st ++ [resp]) st
  | Some err =>
      set_trace (trace st ++ [EvStderr ("Error encoding response: " +:+ err +:+ newline)])
        st
  end.

(** How the [for] loop of [main] stands after at most [fuel] iterations. *)
Inductive Loop : Type :=
| Broke (st : State)
| Panicked (st : State)
| Running (dec : Decoder) (st : State).

Fixpoint serve (E : Env) (fuel : nat) (dec : Decoder) (st : State) : Loop :=
  match fuel with
  | O => Running dec st
  | S fuel =>
      match Decode dec with
      | (inr io_EOF, _) => Broke st
      | (inr _, dec) => serve E fuel dec st
      | (inl req, dec) =>
          match handleRequest E req st with
          | Panics st => Panicked st
          | Returns resp st => serve E fuel dec (Encode E resp st)
          end
      end
  end.

(** How the process ended. *)
Inductive Exit : Type :=
| ExitNormal
| ExitPanic.

Definition after_cleanup (E : Env) (st : State) : State :=
  match cleanup E st with
  | Returns _ st => st
  | Panics st => st
  end.

(** [main] with its deferred [server.cleanup()]: the deferred call runs when
    the loop breaks and also while a panic unwinds.  [None] while the loop is
    still running after [fuel] iterations. *)
Definition main (E : Env) (fuel : nat) (input : list Unit) (cut : bool)
  : option (Exit * State) :=
  match serve E fuel (NewDecoder input cut) initial with
  | Broke st => Some (ExitNormal, after_cleanup E st)
  | Panicked st => Some (ExitPanic, after_cleanup E st)
  | Running _ _ => None
  end.

(** ** Concrete environments and requests *)

Module Demo.

(** A machine with a browser.  Every selector but the ill-formed [##] finds
    an element; no element has the attribute [data-state-demo]. *)
Definition chromium : Env :=
  {| LookPath := fun _ => "/usr/bin/chromium";
     Launch := fun _ => Some "ws://127.0.0.1:9222";
     Connect := fun _ => true;
     NewPage := fun _ => Some 1%nat;
     Navigate := fun _ => None;
     WaitLoad := fun _ => None;
     FindElement := fun h =>
       match last h with
       | Some (EvElement _ _ sel) =>
           if String.eqb sel "##" then Fail "SyntaxError: not a valid selector"
           else OK 7%nat
       | _ => Fail "no call"
       end;
     Click := fun _ => None;
     Attribute := fun h =>
       match last h with
       | Some (EvAttribute _ name) =>
           if String.eqb name "data-state-demo" then OK None else OK (Some "on")
       | _ => Fail "no call"
       end;
     Text := fun _ => OK "hello";
     SelectAllText := fun _ => None;
     Input := fun _ => None;
     Eval_ := fun _ => OK (VFloat64 2);
     Screenshot := fun _ => OK "PNG";
     PageClose := fun _ => None;
     BrowserClose := fun _ => None;
     Now_Unix := fun _ => 1700000000;
     TempDir := "/tmp";
     Join := fun a b => a +:+ "/" +:+ b;
     WriteFile := fun _ => None;
     Unmarshal := fun raw =>
       match raw with
       | Some (VMap [("name", VString n); ("arguments", VMap kvs)]) =>
           OK (n, list_to_map kvs)
       | Some (VMap [("name", VString n)]) => OK (n, ∅)
       | _ => Fail "json: cannot unmarshal"
       end;
     fmt_float64 := fun x => pretty (float64_to_int64 x);
     fmt_value := fun v =>
       match v with
       | VString s => s
       | VFloat64 x => pretty (float64_to_int64 x)
       | _ => "<nil>"
       end;
     Write := fun _ _ _ => None |}.

(** The same machine when the browser cannot be started. *)
Definition noBrowser : Env :=
  {| LookPath := fun _ => "";
     Launch := fun _ => None;
     Connect := Connect chromium;
     NewPage := NewPage chromium;
     Navigate := Navigate chromium;
     WaitLoad := WaitLoad chromium;
     FindElement := FindElement chromium;
     Click := Click chromium;
     Attribute := Attribute chromium;
     Text := Text chromium;
     SelectAllText := SelectAllText chromium;
     Input := Input chromium;
     Eval_ := Eval_ chromium;
     Screenshot := Screenshot chromium;
     PageClose := PageClose chromium;
     BrowserClose := BrowserClose chromium;
     Now_Unix := Now_Unix chromium;
     TempDir := TempDir chromium;
     Join := Join chromium;
     WriteFile := WriteFile chromium;
     Unmarshal := Unmarshal chromium;
     fmt_float64 := fmt_float64 chromium;
     fmt_value := fmt_value chromium;
     Write := Write chromium |}.

(** The same machine when closing the page and the browser both fail. *)
Definition stuckClose : Env :=
  {| LookPath := LookPath chromium;
     Launch := Launch chromium;
     Connect := Connect chromium;
     NewPage := NewPage chromium;
     Navigate := Navigate chromium;
     WaitLoad := WaitLoad chromium;
     FindElement := FindElement chromium;
     Click := Click chromium;
     Attribute := Attribute chromium;
     Text := Text chromium;
     SelectAllText := SelectAllText chromium;
     Input := Input chromium;
     Eval_ := Eval_ chromium;
     Screenshot := Screenshot chromium;
     PageClose := fun _ => Some "target closed";
     BrowserClose := fun _ => Some "connection lost";
     Now_Unix := Now_Unix chromium;
     TempDir := TempDir chromium;
     Join := Join chromium;
     WriteFile := WriteFile chromium;
     Unmarshal := Unmarshal chromium;
     fmt_float64 := fmt_float64 chromium;
     fmt_value := fmt_value chromium;
     Write := Write chromium |}.

Definition request (id : float) (method : string) (params : option GoValue)
  : MCPRequest :=
  {| JSONRPC := "2.0"; ID := VFloat64 id; Method := method; Params := params |}.

Definition call (id : float) (name : string) (arguments : list (string * GoValue))
  : MCPRequest :=
  request id "tools/call"
    (Some (VMap [("name", VString name); ("arguments", VMap arguments)])).

(** A server whose Session was created by [initBrowser] on [chromium]. *)
Definition started : State :=
  {| srv := {| browser := Some {| ControlURL := "ws://127.0.0.1:9222" |};
               page := Some 0%nat |};
     pages := [ {| target := 1; timeouts := [] |} ];
     trace := [ EvLookPath; EvLaunch "/usr/bin/chromium";
                EvConnect "ws://127.0.0.1:9222";
                EvNewPage {| ControlURL := "ws://127.0.0.1:9222" |} ];
     stdout := [] |}.

End Demo.

(** * Vocabulary of the statements *)

(** Changing the result of an outcome, keeping the state. *)
Definition mapOutcome {A B} (f : A -> B) (o : Outcome A) : Outcome B :=
  match o with
  | Returns a st => Returns (f a) st
  | Panics st => Panics st
  end.

(** The same request, and the same response, under another identifier. *)
Definition setID (id : GoValue) (req : MCPRequest) : MCPRequest :=
  {| JSONRPC := JSONRPC req; ID := id; Method := Method req; Params := Params req |}.

Definition setRespID (id : GoValue) (resp : MCPResponse) : MCPResponse :=
  {| RespJSONRPC := RespJSONRPC resp; RespID := id;
     Result := Result resp; Error := Error resp |}.

(** Exactly one of the two members is set. *)
Definition exactlyOne (resp : MCPResponse) : Prop :=
  (is_Some (Result resp) /\ Error resp = None)
  \/ (Result resp = None /\ is_Some (Error resp)).

(** Requests handled one after the other, as the loop of [main] does. *)
Fixpoint handleAll (E : Env) (reqs : list MCPRequest) : M (list MCPResponse) :=
  match reqs with
  | [] => ret []
  | req :: reqs =>
      resp <- handleRequest E req ;;
      resps <- handleAll E reqs ;;
      ret (resp :: resps)
  end.

(** Both handles are set and the page handle points into the store. *)
Definition live (st : State) : Prop :=
  exists b a po,
    browser (srv st) = Some b /\ page (srv st) = Some a /\ pages st !! a = Some po.

(** The state [initBrowser] leaves when every step succeeds. *)
Definition created (E : Env) (st : State) (u : string) (t : nat) : State :=
  {| srv := {| browser := Some {| ControlURL := u |};
               page := Some (length (pages st)) |};
     pages := pages st ++ [ {| target := t; timeouts := [] |} ];
     trace := trace st
              ++ [ EvLookPath; EvLaunch (LookPath E (trace st ++ [EvLookPath]));
                   EvConnect u; EvNewPage {| ControlURL := u |} ];
     stdout := stdout st |}.

(** The Session check at the head of [handleToolCall]: a live Session is
    kept, an absent one is created. *)
Inductive ensured (E : Env) (st : State) : State -> Prop :=
| ensured_kept : live st -> ensured E st st
| ensured_created st1 :
    browser (srv st) = None ->
    initBrowser E st = Returns None st1 ->
    ensured E st st1.

(** What [handleToolCall] does once the Session is there: look the tool up,
    run it, wrap its outcome. *)
Definition dispatch (E : Env) (req : MCPRequest) (name : string) (arguments : Args)
  : M MCPResponse :=
  match toolCase name with
  | None => ret (errorResponse req (-32601) ("Unknown tool: " +:+ name))
  | Some t =>
      r <- runTool E t arguments ;;
      match r with
      | Fail err => ret (errorResponse req (-32603) err)
      | OK result => ret (resultResponse req (ContentResult result))
      end
  end.

(** The name each case of the switch matches. *)
Definition toolName (t : ToolCase) : string :=
  match t with
  | rod_navigate => "rod_navigate"
  | rod_click => "rod_click"
  | rod_screenshot => "rod_screenshot"
  | rod_get_attribute => "rod_get_attribute"
  | rod_get_text => "rod_get_text"
  | rod_wait_for => "rod_wait_for"
  | rod_eval => "rod_eval"
  | rod_fill => "rod_fill"
  end.

(** The arguments the catalog lists under [required] for a tool. *)
Definition requiredArguments (t : ToolCase) : list string :=
  match List.find (fun d => String.eqb (Name d) (toolName t)) getTools with
  | Some d => match required (InputSchema d) with Some l => l | None => [] end
  | None => []
  end.

(** Missing, or not a string. *)
Definition invalid (arguments : Args) (field : string) : bool :=
  match assert_string (arguments !! field) with
  | Some _ => false
  | None => true
  end.

(** The first required argument of a tool, in catalog order, that is invalid. *)
Definition firstInvalid (t : ToolCase) (arguments : Args) : option string :=
  List.find (invalid arguments) (requiredArguments t).

(** [fmt.Sprintf("screenshot_%d.png", n)] *)
Definition timestampName (n : Z) : string := "screenshot_" +:+ pretty n +:+ ".png".

(** The two calls that release the Session. *)
Definition isClose (ev : Event) : bool :=
  match ev with
  | EvPageClose _ | EvBrowserClose _ => true
  | _ => false
  end.

(** No page or browser has been closed so far. *)
Definition noClose (st : State) : Prop :=
  Forall (fun ev => isClose ev = false) (trace st).

(** No Session yet, or a live one. *)
Definition consistent (st : State) : Prop :=
  browser (srv st) = None \/ live st.

(** The state a computation ends in, returning or panicking. *)
Definition final {A} (o : Outcome A) : State :=
  match o with
  | Returns _ st => st
  | Panics st => st
  end.

(** A computation that keeps a property of the state, however it ends. *)
Definition keeps (P : State -> Prop) {A} (m : M A) : Prop :=
  forall st, P st -> P (final (m st)).

(** The states in which the loop reads its next request. *)
Inductive reachable (E : Env) : State -> Prop :=
| reachable_initial : reachable E initial
| reachable_step st req resp st' :
    reachable E st ->
    handleRequest E req st = Returns resp st' ->
    reachable E (Encode E resp st').

(** How the loop stopped, when it did. *)
Definition stopped (l : Loop) : option (Exit * State) :=
  match l with
  | Broke st => Some (ExitNormal, st)
  | Panicked st => Some (ExitPanic, st)
  | Running _ _ => None
  end.

(** The calls [cleanup] makes for a server: the page first, then the
    browser, each only if its handle is set. *)
Definition closes (s : Server) : list Event :=
  match page s with Some p => [EvPageClose p] | None => [] end
  ++ match browser s with Some b => [EvBrowserClose b] | None => [] end.

(** ** Vocabulary of the further properties *)

(** The calls a tool can make: on the page, on an element, on the clock and
    on the file system. *)
Definition toolEvent (ev : Event) : bool :=
  match ev with
  | EvNavigate _ _ _ | EvWaitLoad _ _ | EvElement _ _ _ | EvClick _ _ _
  | EvAttribute _ _ | EvText _ | EvSelectAllText _ | EvInput _ _ | EvEval _ _ _
  | EvScreenshot _ _ _ | EvNow | EvMkdirAll _ _ | EvWriteFile _ _ _ => true
  | _ => false
  end.

(** [st'] differs from [st] by more page objects and more tool calls only. *)
Definition extends (st st' : State) : Prop :=
  srv st' = srv st
  /\ stdout st' = stdout st
  /\ (exists objs, pages st' = pages st ++ objs)
  /\ (exists evs, trace st' = trace st ++ evs
                  /\ Forall (fun ev => toolEvent ev = true) evs).

(** However [m] ends, its final state is [R]-related to the initial one, and
    a returned value satisfies [Q]. *)
Definition ends (R : State -> State -> Prop) {A} (Q : A -> Prop) (m : M A) : Prop :=
  forall st,
    match m st with
    | Returns a st' => R st st' /\ Q a
    | Panics st' => R st st'
    end.

(** The server's page handle is [a] and points into the store. *)
Definition onPage (a : nat) (st : State) : Prop :=
  page (srv st) = Some a /\ is_Some (pages st !! a).

(** From a state on page [a], [m] returns, still on page [a], a value that
    satisfies [Q]. *)
Definition returnsOn (a : nat) {A} (Q : A -> Prop) (m : M A) : Prop :=
  forall st,
    onPage a st ->
    exists r st', m st = Returns r st' /\ onPage a st' /\ Q r.

Definition isLaunch (ev : Event) : bool :=
  match ev with
  | EvLaunch _ => true
  | _ => false
  end.

(** How many times a browser was launched. *)
Definition launches (t : list Event) : nat := length (List.filter isLaunch t).


(** The tools that look an element up and report a miss as "not found". *)
Definition selectorTools : list ToolCase :=
  [rod_click; rod_get_attribute; rod_get_text; rod_fill].

(** What [handleToolCall] makes of a tool's outcome. *)
Definition wrap (req : MCPRequest) (r : res string) : MCPResponse :=
  match r with
  | OK text => resultResponse req (ContentResult text)
  | Fail err => errorResponse req (-32603) err
  end.

Definition in_int64 (z : Z) : Prop := - 2 ^ 63 <= z < 2 ^ 63.

(** A tool's text, when it returns one, is not empty. *)
Definition okText (r : res string) : Prop :=
  match r with
  | OK text => text <> ""
  | Fail _ => True
  end.

(** One launch exactly when a browser is set. *)
Definition launchedOnce (st : State) : Prop :=
  launches (trace st) = match browser (srv st) with Some _ => 1%nat | None => 0%nat end.


(** What a screenshot comes to on page [a] once its file name and its
    [fullPage] are settled; [clock] is the reading of the clock, if one was
    made for the name.  The directory is created, the page captured, and the
    capture written under the name. *)
Definition screenshotOutcome (E : Env) (st : State) (a : nat) (po : PageObj)
    (clock : list Event) (filename : string) (fullPage : bool)
  : Outcome (res string) :=
  let dir := Join E (TempDir E) "rod-screenshots" in
  let path := Join E dir filename in
  let shot :=
    clock ++ [EvMkdirAll dir mode_0755; EvScreenshot a (timeouts po) fullPage] in
  match Screenshot E (trace st ++ shot) with
  | Fail err => Returns (Fail err) (set_trace (trace st ++ shot) st)
  | OK data =>
      Returns
        match WriteFile E (trace st ++ shot ++ [EvWriteFile path data mode_0644]) with
        | Some err => Fail err
        | None => OK ("Screenshot saved to " +:+ path)
        end
        (set_trace (trace st ++ shot ++ [EvWriteFile path data mode_0644]) st)
  end.

(** What a wait for [selector] comes to on page [a] when the timeout is
    [seconds]: two page objects made and left aside, one lookup on the page
    itself, and a message that quotes the seconds when the lookup fails. *)
Definition waitOutcome (E : Env) (st : State) (a : nat) (po : PageObj)
    (selector : string) (seconds : float) (d : Z)
  : Outcome (res string) :=
  Returns
    match FindElement E (trace st ++ [EvElement a (timeouts po) selector]) with
    | Fail _ =>
        Fail ("element " +:+ selector +:+ " did not appear within "
              +:+ fmt_float64 E seconds +:+ " seconds")
    | OK _ => OK ("Element " +:+ selector +:+ " appeared")
    end
    {| srv := srv st;
       pages := pages st
                ++ [ {| target := target po; timeouts := d :: timeouts po |};
                     {| target := target po; timeouts := 0 :: timeouts po |} ];
       trace := trace st ++ [EvElement a (timeouts po) selector];
       stdout := stdout st |}.

(** * Properties *)

(** ** Reasoning about [M] *)

Lemma bind_Returns {A B} (m : M A) (k : A -> M B) st b st' :
  bind m k st = Returns b st' ->
  exists a st1, m st = Returns a st1 /\ k a st1 = Returns b st'.
Proof.
  unfold bind. destruct (m st) as [a st1 | st1]; [eauto | discriminate].
Qed.

Lemma bind_eq {A B} (m : M A) (k : A -> M B) st a st1 :
  m st = Returns a st1 -> bind m k st = k a st1.
Proof. unfold bind. now intros ->. Qed.

(** Run the first action of a sequence, given what it evaluates to. *)
Ltac step H :=
  match goal with
  | |- bind ?m ?k ?s = _ => rewrite (bind_eq m k s _ _ H)
  end.

(** ** The response envelope *)

Lemma exactlyOne_error req code msg : exactlyOne (errorResponse req code msg).
Proof. right. simpl. eauto. Qed.

Lemma exactlyOne_result req r : exactlyOne (resultResponse req r).
Proof. left. simpl. eauto. Qed.

#[local] Hint Resolve exactlyOne_error exactlyOne_result : core.

Lemma handleToolCall_envelope E req st resp st' :
  handleToolCall E req st = Returns resp st' ->
  RespJSONRPC resp = "2.0" /\ RespID resp = ID req /\ exactlyOne resp.
Proof.
  unfold handleToolCall.
  destruct (Unmarshal E (Params req)) as [[name arguments] | e].
  2:{ intros [= <- <-]. auto. }
  intros H.
  apply bind_Returns in H as (b & st1 & _ & H).
  apply bind_Returns in H as (r & st2 & _ & H).
  destruct r as [e |].
  { injection H as <- <-. auto. }
  destruct (toolCase name) as [t |].
  2:{ injection H as <- <-. auto. }
  apply bind_Returns in H as (r & st3 & _ & H).
  destruct r; injection H as <- <-; auto.
Qed.

Lemma handleToolCall_setID E id req st :
  handleToolCall E (setID id req) st
  = mapOutcome (setRespID id) (handleToolCall E req st).
Proof.
  unfold handleToolCall. change (Params (setID id req)) with (Params req).
  destruct (Unmarshal E (Params req)) as [[name arguments] | e]; [| reflexivity].
  unfold bind.
  destruct (s_browser st) as [b st1 | st1]; [| reflexivity].
  destruct (match b with None => initBrowser E | Some _ => ret None end st1)
    as [r st2 | st2]; [| reflexivity].
  destruct r; [reflexivity |].
  destruct (toolCase name) as [t |]; [| reflexivity].
  destruct (runTool E t arguments st2) as [[text | e] st3 | st3]; reflexivity.
Qed.

(** C4. Whenever the dispatcher answers a decoded request, the response
    carries the request's identifier as it came and holds exactly one of a
    result and an error.  The identifier is only echoed: putting any other
    identifier in the request changes the outcome in the echoed identifier
    and in nothing else, whatever the method, the state and the environment. *)
Theorem response_echoes_id_and_is_result_xor_error E req st :
  (forall resp st',
      handleRequest E req st = Returns resp st' ->
      RespID resp = ID req /\ exactlyOne resp)
  /\ (forall id,
         handleRequest E (setID id req) st
         = mapOutcome (setRespID id) (handleRequest E req st)).
Proof.
  split.
  - intros resp st'. unfold handleRequest.
    destruct (String.eqb (Method req) "initialize").
    { intros [= <- <-]. auto. }
    destruct (String.eqb (Method req) "tools/list").
    { intros [= <- <-]. auto. }
    destruct (String.eqb (Method req) "tools/call").
    { intros H. apply handleToolCall_envelope in H. tauto. }
    intros [= <- <-]. auto.
  - intros id. unfold handleRequest.
    change (Method (setID id req)) with (Method req).
    destruct (String.eqb (Method req) "initialize"); [reflexivity |].
    destruct (String.eqb (Method req) "tools/list"); [reflexivity |].
    destruct (String.eqb (Method req) "tools/call"); [| reflexivity].
    apply handleToolCall_setID.
Qed.

(** The first part at a [tools/list] request on a fresh server. *)
Lemma response_envelope_example :
  RespID (resultResponse (Demo.request 3 "tools/list" None) (ToolsResult getTools))
  = ID (Demo.request 3 "tools/list" None)
  /\ exactlyOne
       (resultResponse (Demo.request 3 "tools/list" None) (ToolsResult getTools)).
Proof.
  apply (proj1 (response_echoes_id_and_is_result_xor_error
                  Demo.chromium (Demo.request 3 "tools/list" None) initial)
           _ initial).
  reflexivity.
Defined.

(** ** The catalog *)

Lemma tools_list_once E req st :
  Method req = "tools/list" ->
  handleRequest E req st = Returns (resultResponse req (ToolsResult getTools)) st.
Proof. unfold handleRequest. now intros ->. Qed.

(** C7. The catalog holds the eight descriptors, and any run of [tools/list]
    requests, from any server state and in any environment, is answered with
    that same catalog each time and leaves the state (server fields, page
    store, trace of outside calls, output) as it was. *)
Theorem tools_list_is_constant_and_pure E reqs st :
  Forall (fun req => Method req = "tools/list") reqs ->
  map Name getTools
  = [ "rod_navigate"; "rod_click"; "rod_screenshot"; "rod_get_attribute";
      "rod_get_text"; "rod_wait_for"; "rod_eval"; "rod_fill" ]
  /\ handleAll E reqs st
     = Returns (map (fun req => resultResponse req (ToolsResult getTools)) reqs) st.
Proof.
  intros H. split; [reflexivity |].
  induction H as [| req reqs Hreq _ IH]; [reflexivity |].
  cbn [handleAll map].
  rewrite (bind_eq _ _ _ _ _ (tools_list_once E req st Hreq)).
  now rewrite (bind_eq _ _ _ _ _ IH).
Qed.

(** Two [tools/list] requests in a row on a server with a live Session. *)
Lemma tools_list_example :
  map Name getTools
  = [ "rod_navigate"; "rod_click"; "rod_screenshot"; "rod_get_attribute";
      "rod_get_text"; "rod_wait_for"; "rod_eval"; "rod_fill" ]
  /\ handleAll Demo.chromium
       [Demo.request 1 "tools/list" None; Demo.request 2 "tools/list" None]
       Demo.started
     = Returns
         (map (fun req => resultResponse req (ToolsResult getTools))
            [Demo.request 1 "tools/list" None; Demo.request 2 "tools/list" None])
         Demo.started.
Proof.
  apply (tools_list_is_constant_and_pure Demo.chromium
           [Demo.request 1 "tools/list" None; Demo.request 2 "tools/list" None]
           Demo.started).
  repeat constructor.
Defined.

(** ** The Session *)

Lemma initBrowser_Returns E st r st1 :
  initBrowser E st = Returns r st1 ->
  r = None /\ exists u t, st1 = created E st u t.
Proof.
  unfold initBrowser, launcher_LookPath, MustLaunch, MustConnect, MustPage,
    set_browser, set_page, s_browser, bind, emit, ret, modify, get, alloc, panic.
  cbn.
  destruct (Launch E _) as [u |]; [| discriminate]. cbn.
  destruct (Connect E _); [| discriminate]. cbn.
  destruct (NewPage E _) as [t |]; [| discriminate]. cbn.
  intros [= <- <-]. split; [reflexivity |].
  exists u, t. unfold created, set_srv, set_trace, set_pages. cbn.
  now rewrite <- !app_assoc.
Qed.

Lemma created_live E st u t : live (created E st u t).
Proof.
  exists {| ControlURL := u |}, (length (pages st)), {| target := t; timeouts := [] |}.
  cbn. repeat split. now rewrite lookup_app_r, Nat.sub_diag by lia.
Qed.

Lemma ensured_live E st st1 : ensured E st st1 -> live st1.
Proof.
  intros [H | st1' _ H]; [exact H |].
  apply initBrowser_Returns in H as (_ & u & t & ->). apply created_live.
Qed.

Lemma ensured_same E st st1 : ensured E st st1 -> live st -> st1 = st.
Proof.
  intros [H | st1' Hb _] Hl; [reflexivity |].
  destruct Hl as (b & ? & ? & Hb' & _). congruence.
Qed.

Lemma started_live : live Demo.started.
Proof.
  exists {| ControlURL := "ws://127.0.0.1:9222" |}, 0%nat,
    {| target := 1; timeouts := [] |}.
  repeat split.
Defined.

Lemma handleToolCall_ensured E req st st1 name arguments :
  Unmarshal E (Params req) = OK (name, arguments) ->
  ensured E st st1 ->
  handleToolCall E req st = dispatch E req name arguments st1.
Proof.
  intros HU Hens. unfold handleToolCall. rewrite HU.
  rewrite (bind_eq _ _ st (browser (srv st)) st) by reflexivity.
  destruct Hens as [(b & a & po & Hb & _) | st1 Hb Hinit]; rewrite Hb.
  - reflexivity.
  - now rewrite (bind_eq _ _ _ _ _ Hinit).
Qed.

Lemma handleRequest_call E req st :
  Method req = "tools/call" -> handleRequest E req st = handleToolCall E req st.
Proof. unfold handleRequest. now intros ->. Qed.

(** ** Calls on a live page *)

Section Calls.

Variable E : Env.
Variables (st : State) (a : nat) (po : PageObj).
Hypothesis Hpage : page (srv st) = Some a.
Hypothesis Hobj : pages st !! a = Some po.

Lemma s_page_live : s_page st = Returns (Some a) st.
Proof. unfold s_page, bind, get, ret. now rewrite Hpage. Qed.

Lemma Page_Element_live selector :
  Page_Element E (Some a) selector st
  = Returns (FindElement E (trace st ++ [EvElement a (timeouts po) selector]))
      (set_trace (trace st ++ [EvElement a (timeouts po) selector]) st).
Proof. unfold Page_Element, deref, emit, bind, ret. now rewrite Hobj. Qed.

Lemma Page_Timeout_live d :
  Page_Timeout (Some a) d st
  = Returns (length (pages st))
      (set_pages (pages st ++ [ {| target := target po; timeouts := d :: timeouts po |} ])
         st).
Proof. unfold Page_Timeout, deref, alloc, bind. now rewrite Hobj. Qed.

End Calls.

(** Read [s.page] when the handle is known; the handle is the same in every
    state that differs only in the store or the trace. *)
Ltac step_page a H :=
  match goal with
  | |- bind s_page ?k ?s = _ => rewrite (bind_eq s_page k s _ _ (s_page_live s a H))
  end.

(** ** [rod_get_attribute] *)

(** C6. A [rod_get_attribute] call with string arguments whose selector finds
    an element and whose attribute that element does not have is answered with
    a result, not an error, and the text says the attribute was not found on
    the selector. *)
Theorem absent_attribute_is_a_result E req st st1 arguments selector attribute
    a po elem :
  Method req = "tools/call" ->
  Unmarshal E (Params req) = OK ("rod_get_attribute", arguments) ->
  arguments !! "selector" = Some (VString selector) ->
  arguments !! "attribute" = Some (VString attribute) ->
  ensured E st st1 ->
  page (srv st1) = Some a ->
  pages st1 !! a = Some po ->
  FindElement E (trace st1 ++ [EvElement a (timeouts po) selector]) = OK elem ->
  Attribute E (trace st1 ++ [EvElement a (timeouts po) selector;
                             EvAttribute elem attribute]) = OK None ->
  handleRequest E req st
  = Returns
      (resultResponse req
         (ContentResult ("Attribute '" +:+ attribute +:+ "' not found on " +:+ selector)))
      (set_trace (trace st1 ++ [EvElement a (timeouts po) selector;
                                EvAttribute elem attribute]) st1).
Proof.
  intros Hm HU Hsel Hattr Hens Hp Ho Hfind Habsent.
  rewrite (handleRequest_call _ _ _ Hm).
  rewrite (handleToolCall_ensured _ _ _ _ _ _ HU Hens).
  unfold dispatch. cbn [toolCase String.eqb Ascii.eqb Bool.eqb runTool].
  unfold getAttribute. rewrite Hsel, Hattr. cbn [assert_string].
  unfold bind at 1. rewrite (bind_eq _ _ _ _ _ (s_page_live st1 a Hp)).
  rewrite (bind_eq _ _ _ _ _ (Page_Element_live E st1 a po Ho selector)).
  rewrite Hfind.
  unfold Element_Attribute, emit, bind, ret. cbn [trace set_trace].
  rewrite <- app_assoc. cbn [app]. rewrite Habsent.
  reflexivity.
Qed.

(** The scenario of the description: [data-state-demo] read from an element
    that lacks it. *)
Lemma absent_attribute_example :
  handleRequest Demo.chromium
    (Demo.call 4 "rod_get_attribute"
       [("selector", VString "[data-state-demo]");
        ("attribute", VString "data-state-demo")])
    Demo.started
  = Returns
      (resultResponse
         (Demo.call 4 "rod_get_attribute"
            [("selector", VString "[data-state-demo]");
             ("attribute", VString "data-state-demo")])
         (ContentResult
            ("Attribute '" +:+ "data-state-demo" +:+ "' not found on "
             +:+ "[data-state-demo]")))
      (set_trace
         (trace Demo.started
          ++ [EvElement 0 (timeouts {| target := 1; timeouts := [] |})
                "[data-state-demo]";
              EvAttribute 7 "data-state-demo"])
         Demo.started).
Proof.
  apply (absent_attribute_is_a_result Demo.chromium _ Demo.started Demo.started
           (list_to_map [("selector", VString "[data-state-demo]");
                         ("attribute", VString "data-state-demo")])
           "[data-state-demo]" "data-state-demo" 0%nat
           {| target := 1; timeouts := [] |} 7%nat);
    try reflexivity.
  apply ensured_kept, started_live.
Defined.

(** ** Required arguments *)

Lemma toolCase_toolName name t : toolCase name = Some t -> name = toolName t.
Proof.
  unfold toolCase.
  repeat match goal with
         | |- context [String.eqb name ?s] => destruct (String.eqb_spec name s)
         end; intros [= <-]; assumption.
Qed.

(** Every required argument is declared a string in the catalog. *)
Lemma required_are_strings :
  forallb (fun d =>
             forallb (fun f =>
                        existsb (fun p => String.eqb (fst p) f
                                          && String.eqb (fst (snd p)) "string")
                          (properties (InputSchema d)))
               (match required (InputSchema d) with Some l => l | None => [] end))
    getTools = true.
Proof. reflexivity. Qed.

Lemma requiredArguments_eq t :
  requiredArguments t
  = match t with
    | rod_navigate => ["url"]
    | rod_click | rod_get_text | rod_wait_for => ["selector"]
    | rod_screenshot => []
    | rod_get_attribute => ["selector"; "attribute"]
    | rod_eval => ["script"]
    | rod_fill => ["selector"; "text"]
    end.
Proof. destruct t; reflexivity. Qed.

(** A tool whose required argument is invalid returns at once, naming the
    first such argument, before it touches the page. *)
Lemma runTool_invalid E t arguments field st :
  firstInvalid t arguments = Some field ->
  runTool E t arguments st = Returns (Fail (field +:+ " must be a string")) st.
Proof.
  unfold firstInvalid, invalid. rewrite requiredArguments_eq.
  destruct t; cbn [List.find runTool];
    unfold navigate, click, getAttribute, getText, waitFor, eval, fill;
    repeat match goal with
           | |- context [assert_string (arguments !! ?k)] =>
               destruct (assert_string (arguments !! k))
           end;
    intros [= <-]; reflexivity.
Qed.

(** If some required argument is invalid, there is a first one. *)
Lemma firstInvalid_exists t arguments f :
  In f (requiredArguments t) ->
  assert_string (arguments !! f) = None ->
  exists field,
    firstInvalid t arguments = Some field
    /\ In field (requiredArguments t)
    /\ assert_string (arguments !! field) = None.
Proof.
  intros Hin Hbad. unfold firstInvalid.
  destruct (List.find (invalid arguments) (requiredArguments t)) as [field |] eqn:Hf.
  - apply List.find_some in Hf as [Hin' Hinv]. exists field.
    repeat split; [exact Hin' |]. unfold invalid in Hinv.
    now destruct (assert_string (arguments !! field)).
  - apply (List.find_none _ _ Hf) in Hin. unfold invalid in Hin.
    now rewrite Hbad in Hin.
Qed.

(** C5. A [tools/call] for a known tool in which some argument the catalog
    lists as required is missing or not a string is answered with an error
    and no result.  The message names such an argument (the first one in
    catalog order).  Nothing is done to the Session: it is live afterwards,
    and if it was live before, the state is the one the call started from, so
    a later call finds it as it was. *)
Theorem invalid_required_argument_is_reported E req st st1 name t arguments f :
  Method req = "tools/call" ->
  Unmarshal E (Params req) = OK (name, arguments) ->
  toolCase name = Some t ->
  ensured E st st1 ->
  In f (requiredArguments t) ->
  assert_string (arguments !! f) = None ->
  exists field,
    firstInvalid t arguments = Some field
    /\ In field (requiredArguments t)
    /\ assert_string (arguments !! field) = None
    /\ handleRequest E req st
       = Returns (errorResponse req (-32603) (field +:+ " must be a string")) st1
    /\ Result (errorResponse req (-32603) (field +:+ " must be a string")) = None
    /\ live st1
    /\ (live st -> st1 = st).
Proof.
  intros Hm HU Ht Hens Hin Hbad.
  destruct (firstInvalid_exists t arguments f Hin Hbad) as (field & Hfirst & Hin' & Hbad').
  exists field. repeat split; try assumption.
  - rewrite (handleRequest_call _ _ _ Hm).
    rewrite (handleToolCall_ensured _ _ _ _ _ _ HU Hens).
    unfold dispatch. rewrite Ht.
    now rewrite (bind_eq _ _ _ _ _ (runTool_invalid E t arguments field st1 Hfirst)).
  - exact (ensured_live _ _ _ Hens).
  - exact (ensured_same _ _ _ Hens).
Qed.

(** [rod_fill] called without its [text]. *)
Lemma invalid_required_argument_example :
  exists field,
    firstInvalid rod_fill (list_to_map [("selector", VString "#q")]) = Some field
    /\ In field (requiredArguments rod_fill)
    /\ assert_string
         ((list_to_map [("selector", VString "#q")] : gmap string GoValue) !! field)
       = None
    /\ handleRequest Demo.chromium
         (Demo.call 5 "rod_fill" [("selector", VString "#q")]) Demo.started
       = Returns
           (errorResponse (Demo.call 5 "rod_fill" [("selector", VString "#q")])
              (-32603) (field +:+ " must be a string"))
           Demo.started
    /\ Result
         (errorResponse (Demo.call 5 "rod_fill" [("selector", VString "#q")])
            (-32603) (field +:+ " must be a string")) = None
    /\ live Demo.started
    /\ (live Demo.started -> Demo.started = Demo.started).
Proof.
  apply (invalid_required_argument_is_reported Demo.chromium
           (Demo.call 5 "rod_fill" [("selector", VString "#q")])
           Demo.started Demo.started "rod_fill" rod_fill
           (list_to_map [("selector", VString "#q")]) "text");
    try reflexivity.
  - apply ensured_kept, started_live.
  - right. left. reflexivity.
Defined.

(** ** Order of the Session check *)

(** C9. When a [tools/call] whose params decode arrives with no browser, the
    call is [initBrowser] followed by the tool lookup and the argument checks.
    So when creation succeeds, the state the response comes with is the created
    Session (browser located, launched, connected, page opened), also when the
    response is the error for an unknown tool or for an invalid argument. *)
Theorem session_is_created_before_lookup E req st name arguments :
  Method req = "tools/call" ->
  Unmarshal E (Params req) = OK (name, arguments) ->
  browser (srv st) = None ->
  handleRequest E req st
  = bind (initBrowser E) (fun _ => dispatch E req name arguments) st
  /\ forall st1,
      initBrowser E st = Returns None st1 ->
      (exists u t, st1 = created E st u t)
      /\ live st1
      /\ (toolCase name = None ->
          handleRequest E req st
          = Returns (errorResponse req (-32601) ("Unknown tool: " +:+ name)) st1)
      /\ (forall t field,
             toolCase name = Some t ->
             firstInvalid t arguments = Some field ->
             handleRequest E req st
             = Returns (errorResponse req (-32603) (field +:+ " must be a string"))
                 st1).
Proof.
  intros Hm HU Hb.
  rewrite (handleRequest_call _ _ _ Hm).
  split.
  - unfold handleToolCall. rewrite HU.
    rewrite (bind_eq _ _ st (browser (srv st)) st) by reflexivity.
    rewrite Hb. unfold bind.
    destruct (initBrowser E st) as [r st1 | st1] eqn:Hinit; [| reflexivity].
    apply initBrowser_Returns in Hinit as (-> & _). reflexivity.
  - intros st1 Hinit.
    pose proof (ensured_created E st st1 Hb Hinit) as Hens.
    rewrite (handleToolCall_ensured _ _ _ _ _ _ HU Hens).
    split; [apply initBrowser_Returns in Hinit; tauto |].
    split; [eauto using ensured_live |].
    unfold dispatch. split.
    + now intros ->.
    + intros t field -> Hbad.
      now rewrite (bind_eq _ _ _ _ _ (runTool_invalid E t arguments field st1 Hbad)).
Qed.

(** An unknown tool as the first call of a fresh server: the answer is the
    error, and the browser has been started. *)
Lemma unknown_tool_still_creates_session :
  handleRequest Demo.chromium (Demo.call 6 "rod_teleport" []) initial
  = Returns
      (errorResponse (Demo.call 6 "rod_teleport" []) (-32601)
         ("Unknown tool: " +:+ "rod_teleport"))
      Demo.started.
Proof.
  destruct (session_is_created_before_lookup Demo.chromium
              (Demo.call 6 "rod_teleport" []) initial "rod_teleport" ∅
              eq_refl eq_refl eq_refl) as [_ H].
  destruct (H Demo.started eq_refl) as (_ & _ & Hunknown & _).
  apply Hunknown. reflexivity.
Defined.

(** ** Optional arguments *)

Lemma screenshot_default_filename E arguments st :
  assert_string (arguments !! "filename") = None
  \/ arguments !! "filename" = Some (VString "") ->
  screenshot E arguments st
  = (n <- time_Now_Unix E ;;
     screenshot E (<["filename" := VString (timestampName n)]> arguments)) st.
Proof.
  intros H. unfold screenshot, time_Now_Unix, timestampName.
  unfold bind, emit, ret.
  cbn beta iota.
  rewrite lookup_insert_eq, lookup_insert_ne by discriminate.
  cbn [assert_string String.append String.eqb Ascii.eqb Bool.eqb].
  destruct H as [-> | ->]; reflexivity.
Qed.

Lemma screenshot_default_fullPage E arguments st :
  assert_bool (arguments !! "fullPage") = None ->
  screenshot E arguments st = screenshot E (<["fullPage" := VBool false]> arguments) st.
Proof.
  intros H. unfold screenshot.
  rewrite lookup_insert_eq, lookup_insert_ne, H by discriminate.
  reflexivity.
Qed.

Lemma waitFor_default_timeout E arguments st :
  assert_float64 (arguments !! "timeout") = None ->
  waitFor E arguments st = waitFor E (<["timeout" := VFloat64 30]> arguments) st.
Proof.
  intros H. unfold waitFor.
  rewrite lookup_insert_eq, lookup_insert_ne, H by discriminate.
  reflexivity.
Qed.

(** ** Invariants of the request loop *)

Section Keeps.

Variable P : State -> Prop.
Hypothesis P_emit :
  forall st ev, isClose ev = false -> P st -> P (set_trace (trace st ++ [ev]) st).
Hypothesis P_alloc :
  forall st o, P st -> P (set_pages (pages st ++ [o]) st).

Lemma keeps_ret {A} (a : A) : keeps P (ret a).
Proof. now intros st H. Qed.

Lemma keeps_panic {A} : keeps P (@panic A).
Proof. now intros st H. Qed.

Lemma keeps_get : keeps P get.
Proof. now intros st H. Qed.

Lemma keeps_bind {A B} (m : M A) (k : A -> M B) :
  keeps P m -> (forall a, keeps P (k a)) -> keeps P (bind m k).
Proof.
  intros Hm Hk st H. unfold bind. specialize (Hm st H).
  destruct (m st) as [a st1 | st1]; [apply Hk |]; exact Hm.
Qed.

Lemma keeps_emit ev : isClose ev = false -> keeps P (emit ev).
Proof. intros Hev st H. now apply P_emit. Qed.

Lemma keeps_deref p : keeps P (deref p).
Proof.
  intros st H. unfold deref.
  destruct p as [a |]; [destruct (pages st !! a) |]; exact H.
Qed.

Lemma keeps_alloc o : keeps P (alloc o).
Proof. intros st H. now apply P_alloc. Qed.

Ltac keeps_step :=
  first
    [ apply keeps_ret | apply keeps_panic | apply keeps_get | apply keeps_deref
    | apply keeps_alloc
    | apply keeps_emit; reflexivity
    | apply keeps_bind; [| intros ? ]
    | match goal with
      | |- keeps _ (match ?x with _ => _ end) => destruct x
      | |- keeps _ (let _ := _ in _) => cbv zeta
      end ].

(** The tools write to the trace and allocate pages, and nothing else. *)
Lemma keeps_runTool E t arguments : keeps P (runTool E t arguments).
Proof.
  destruct t; cbn [runTool];
    unfold navigate, click, screenshot, getAttribute, getText, waitFor, eval, fill,
      s_page, Page_Navigate, Page_WaitLoad, Page_Element, Page_Eval,
      Page_Screenshot, Page_Timeout, Element_Click, Element_Attribute,
      Element_Text, Element_SelectAllText, Element_Input, time_Now_Unix,
      os_MkdirAll, os_WriteFile;
    repeat keeps_step.
Qed.

Lemma keeps_dispatch E req name arguments : keeps P (dispatch E req name arguments).
Proof. unfold dispatch. repeat first [ apply keeps_runTool | keeps_step ]. Qed.

End Keeps.

Lemma noClose_emit st ev :
  isClose ev = false -> noClose st -> noClose (set_trace (trace st ++ [ev]) st).
Proof.
  intros Hev H. unfold noClose. cbn.
  apply Forall_app. split; [exact H | now constructor].
Qed.

Lemma noClose_alloc st o : noClose st -> noClose (set_pages (pages st ++ [o]) st).
Proof. now intros H. Qed.

Lemma live_emit st ev :
  isClose ev = false -> live st -> live (set_trace (trace st ++ [ev]) st).
Proof. now intros _ H. Qed.

Lemma live_alloc st o : live st -> live (set_pages (pages st ++ [o]) st).
Proof.
  intros (b & a & po & Hb & Hp & Ho). exists b, a, po. cbn.
  repeat split; try assumption.
  rewrite lookup_app_l; [assumption | now apply (lookup_lt_Some _ _ po)].
Qed.

Lemma noClose_initBrowser E : keeps noClose (initBrowser E).
Proof.
  unfold initBrowser, launcher_LookPath, MustLaunch, MustConnect, MustPage,
    set_browser, set_page, s_browser.
  repeat first
    [ apply keeps_ret | apply keeps_panic | apply keeps_get
    | apply (keeps_alloc _ noClose_alloc)
    | apply (keeps_emit _ noClose_emit); reflexivity
    | apply keeps_bind; [| intros ? ]
    | match goal with
      | |- keeps _ (match ?x with _ => _ end) => destruct x
      end
    | now intros st H ].
Qed.

Lemma noClose_handleRequest E req : keeps noClose (handleRequest E req).
Proof.
  unfold handleRequest. repeat (destruct (String.eqb _ _)); try now intros st H.
  unfold handleToolCall.
  destruct (Unmarshal E (Params req)) as [[name arguments] | e]; [| now intros st H].
  apply keeps_bind; [now intros st H | intros b].
  change (keeps noClose
            (err <- match b with None => initBrowser E | Some _ => ret None end ;;
             match err with
             | Some err =>
                 ret (errorResponse req (-32603)
                        ("Failed to initialize browser: " +:+ err))
             | None => dispatch E req name arguments
             end)).
  apply keeps_bind.
  - destruct b; [now intros st H | apply noClose_initBrowser].
  - intros [e |]; [now intros st H |].
    apply keeps_dispatch; [apply noClose_emit | apply noClose_alloc].
Qed.

(** A request that is answered leaves the Session absent or live. *)
Lemma consistent_handleRequest E req st resp st' :
  consistent st ->
  handleRequest E req st = Returns resp st' ->
  consistent st'.
Proof.
  intros Hc. unfold handleRequest.
  repeat (destruct (String.eqb _ _)); try (now intros [= <- <-]).
  unfold handleToolCall.
  destruct (Unmarshal E (Params req)) as [[name arguments] | e];
    [| now intros [= <- <-]].
  rewrite (bind_eq _ _ st (browser (srv st)) st) by reflexivity.
  intros H. apply bind_Returns in H as (r & st1 & Hens & H).
  assert (Hlive : live st1).
  { destruct Hc as [Hb | Hl].
    - rewrite Hb in Hens. apply initBrowser_Returns in Hens as (_ & u & t & ->).
      apply created_live.
    - destruct Hl as (b & a & po & Hb & Hl). rewrite Hb in Hens.
      injection Hens as <- <-. now exists b, a, po. }
  destruct r as [e |]; [injection H as <- <-; now right |].
  right.
  pose proof (keeps_dispatch live live_emit live_alloc E req name arguments st1 Hlive)
    as Hk.
  unfold dispatch in Hk. now rewrite H in Hk.
Qed.

(** Writing a response touches neither the server fields nor the store. *)
Lemma Encode_srv E resp st : srv (Encode E resp st) = srv st.
Proof. unfold Encode. now destruct (Write E _ _ _). Qed.

Lemma Encode_pages E resp st : pages (Encode E resp st) = pages st.
Proof. unfold Encode. now destruct (Write E _ _ _). Qed.

Lemma Encode_noClose E resp st : noClose st -> noClose (Encode E resp st).
Proof.
  intros H. unfold Encode. destruct (Write E _ _ _); [| exact H].
  now apply noClose_emit.
Qed.

Lemma reachable_consistent E st : reachable E st -> consistent st.
Proof.
  induction 1 as [| st req resp st' _ IH H]; [now left |].
  apply (consistent_handleRequest _ _ _ _ _ IH) in H.
  unfold consistent, live. rewrite Encode_srv, Encode_pages. exact H.
Qed.

Lemma reachable_noClose E st : reachable E st -> noClose st.
Proof.
  induction 1 as [| st req resp st' _ IH H]; [constructor |].
  pose proof (noClose_handleRequest E req st IH) as Hk. rewrite H in Hk.
  now apply Encode_noClose.
Qed.

(** In a state the loop can be in, the Session check either yields a live
    Session or panics inside [initBrowser]. *)
Lemma reachable_ensured E st :
  reachable E st ->
  (exists st1, ensured E st st1)
  \/ (browser (srv st) = None /\ exists st', initBrowser E st = Panics st').
Proof.
  intros H. destruct (reachable_consistent _ _ H) as [Hb | Hl].
  - destruct (initBrowser E st) as [r st1 | st1] eqn:Hinit.
    + left. exists st1. apply ensured_created; [exact Hb |].
      now destruct (initBrowser_Returns _ _ _ _ Hinit) as [-> _].
    + right. eauto.
  - left. exists st. now apply ensured_kept.
Qed.

Lemma serve_noClose E fuel : forall dec st ex st0,
  reachable E st ->
  stopped (serve E fuel dec st) = Some (ex, st0) ->
  noClose st0.
Proof.
  induction fuel as [| fuel IH]; intros dec st ex st0 Hst; cbn [serve stopped].
  - discriminate.
  - destruct (Decode dec) as [[req | e] dec'].
    + pose proof (noClose_handleRequest E req st (reachable_noClose _ _ Hst)) as Hreq.
      destruct (handleRequest E req st) as [resp st1 | st1] eqn:Hh; cbn in *.
      * apply IH. now apply (reachable_step E st req resp st1).
      * now intros [= <- <-].
    + destruct e; try (apply IH; exact Hst).
      intros [= <- <-]. now apply (reachable_noClose E).
Qed.

Lemma after_cleanup_eq E st :
  after_cleanup E st = set_trace (trace st ++ closes (srv st)) st.
Proof.
  unfold after_cleanup, cleanup, closes, s_page, s_browser, Page_Close,
    Browser_Close, bind, emit, get, ret, set_trace.
  destruct st as [[b p] h t o]. cbn.
  destruct p, b; cbn; rewrite <- ?app_assoc, ?app_nil_r; reflexivity.
Qed.

(** C8. Whenever the process exits, by end of input or by a panic, with or
    without a Session, the loop itself has closed nothing, and the final
    trace is the loop's trace followed by the calls of one [cleanup]: the page
    is closed if its handle is set, then the browser if its handle is set.
    The environment is arbitrary, so this holds whatever either close call
    answers. *)
Theorem teardown_runs_once_page_then_browser E fuel input cut ex st :
  main E fuel input cut = Some (ex, st) ->
  exists st0,
    stopped (serve E fuel (NewDecoder input cut) initial) = Some (ex, st0)
    /\ noClose st0
    /\ st = set_trace (trace st0 ++ closes (srv st0)) st0.
Proof.
  unfold main. intros H.
  destruct (serve E fuel (NewDecoder input cut) initial) as [st0 | st0 | dec st0]
    eqn:Hserve; try discriminate;
    injection H as <- <-; exists st0;
    (split; [reflexivity |]);
    (split; [| apply after_cleanup_eq]);
    eapply (serve_noClose E fuel (NewDecoder input cut) initial);
    try (rewrite Hserve; reflexivity); constructor.
Qed.

(** One [rod_navigate], then end of input, on a machine where both close
    calls fail. *)
Lemma teardown_example :
  exists st0,
    stopped (serve Demo.stuckClose 3
               (NewDecoder
                  [UValue (Demo.call 1 "rod_navigate"
                             [("url", VString "http://localhost:8080")])]
                  false)
               initial)
    = Some (ExitNormal, st0)
    /\ noClose st0
    /\ {| srv := srv Demo.started;
          pages := pages Demo.started;
          trace := trace Demo.started
                   ++ [EvNavigate 0 [] "http://localhost:8080"; EvWaitLoad 0 [];
                       EvPageClose 0;
                       EvBrowserClose {| ControlURL := "ws://127.0.0.1:9222" |}];
          stdout := [resultResponse
                       (Demo.call 1 "rod_navigate"
                          [("url", VString "http://localhost:8080")])
                       (ContentResult
                          "Successfully navigated to http://localhost:8080")] |}
       = set_trace (trace st0 ++ closes (srv st0)) st0.
Proof.
  apply (teardown_runs_once_page_then_browser Demo.stuckClose 3
           [UValue (Demo.call 1 "rod_navigate"
                      [("url", VString "http://localhost:8080")])]
           false ExitNormal).
  reflexivity.
Defined.

(** ** Where the code departs from its description *)

(** *** The wait timeout *)

(** Whatever timeout is asked for, [waitFor] looks the selector up on the
    server's own page object, under the context that object already had; the
    two objects made by [Timeout] are left in the store, unused, and the
    server's page object is not touched. *)
Lemma waitFor_lookup_context E arguments st a po selector :
  page (srv st) = Some a ->
  pages st !! a = Some po ->
  assert_string (arguments !! "selector") = Some selector ->
  let timeout :=
    match assert_float64 (arguments !! "timeout") with
    | Some t => t
    | None => 30%float
    end in
  let clones :=
    [ {| target := target po; timeouts := seconds_to_Duration timeout :: timeouts po |};
      {| target := target po; timeouts := 0 :: timeouts po |} ] in
  waitFor E arguments st
  = Returns
      match FindElement E (trace st ++ [EvElement a (timeouts po) selector]) with
      | Fail _ =>
          Fail ("element " +:+ selector +:+ " did not appear within "
                +:+ fmt_float64 E timeout +:+ " seconds")
      | OK _ => OK ("Element " +:+ selector +:+ " appeared")
      end
      {| srv := srv st;
         pages := pages st ++ clones;
         trace := trace st ++ [EvElement a (timeouts po) selector];
         stdout := stdout st |}
  /\ (pages st ++ clones) !! a = Some po.
Proof.
  intros Hp Ho Hsel timeout clones. unfold waitFor. rewrite Hsel.
  pose proof (lookup_lt_Some _ _ _ Ho) as Hlt.
  assert (Ho1 : forall l, (pages st ++ l) !! a = Some po)
    by (intros l; now rewrite lookup_app_l).
  split; [| apply Ho1].
  cbv beta iota zeta. fold timeout.
  step_page a Hp.
  step (Page_Timeout_live st a po Ho (seconds_to_Duration timeout)).
  step_page a Hp.
  match goal with
  | |- bind _ _ ?s = _ =>
      step (Page_Element_live E s a po (Ho1 _ : pages s !! a = Some po) selector)
  end.
  step_page a Hp.
  match goal with
  | |- bind _ _ ?s = _ =>
      step (Page_Timeout_live s a po (Ho1 _ : pages s !! a = Some po) 0)
  end.
  unfold ret, set_pages, set_trace, clones. cbn. rewrite <- app_assoc. reflexivity.
Qed.

(** The conversion drops the fraction before scaling: half a second is no
    time at all. *)
Lemma fractional_timeout_truncates : seconds_to_Duration 0.5 = 0.
Proof. reflexivity. Qed.

(** C1. On a live Session, [rod_wait_for] with selector [#app] and timeout 5:
    the lookup event carries an empty context, that is, no timeout; the
    5-second page and the 0-second page exist only as unused objects in the
    store. *)
Theorem wait_for_does_not_apply_its_timeout :
  handleRequest Demo.chromium
    (Demo.call 7 "rod_wait_for" [("selector", VString "#app"); ("timeout", VFloat64 5)])
    Demo.started
  = Returns
      (resultResponse
         (Demo.call 7 "rod_wait_for"
            [("selector", VString "#app"); ("timeout", VFloat64 5)])
         (ContentResult "Element #app appeared"))
      {| srv := srv Demo.started;
         pages := [ {| target := 1; timeouts := [] |};
                    {| target := 1; timeouts := [5000000000] |};
                    {| target := 1; timeouts := [0] |} ];
         trace := trace Demo.started ++ [EvElement 0 [] "#app"];
         stdout := [] |}.
Proof. reflexivity. Qed.

(** *** Session creation that fails *)

(** [initBrowser] has no path that returns an error. *)
Lemma initBrowser_never_returns_error E st err st1 :
  initBrowser E st <> Returns (Some err) st1.
Proof. intros H. apply initBrowser_Returns in H as [H _]. discriminate. Qed.

Lemma failed_launch_panics E req st name arguments :
  Unmarshal E (Params req) = OK (name, arguments) ->
  browser (srv st) = None ->
  Launch E (trace st ++ [EvLookPath; EvLaunch (LookPath E (trace st ++ [EvLookPath]))])
  = None ->
  handleToolCall E req st
  = Panics (set_trace
              (trace st ++ [EvLookPath; EvLaunch (LookPath E (trace st ++ [EvLookPath]))])
              st).
Proof.
  intros HU Hb HL. unfold handleToolCall. rewrite HU.
  rewrite (bind_eq _ _ st (browser (srv st)) st) by reflexivity.
  rewrite Hb.
  unfold initBrowser, launcher_LookPath, MustLaunch, bind, emit, ret. cbn.
  rewrite <- app_assoc. cbn [app]. rewrite HL. reflexivity.
Qed.

(** C2. With no browser to launch, the first [tools/call] makes the process
    exit by a panic: nothing is written for that request, and the request
    after it is never read. *)
Theorem failed_session_creation_is_fatal fuel :
  main Demo.noBrowser (S fuel)
    [ UValue (Demo.call 1 "rod_navigate" [("url", VString "http://localhost:8080")]);
      UValue (Demo.request 2 "tools/list" None) ]
    false
  = Some (ExitPanic,
          {| srv := {| browser := None; page := None |};
             pages := [];
             trace := [EvLookPath; EvLaunch ""];
             stdout := [] |}).
Proof. reflexivity. Qed.

(** *** Decode errors *)

(** Once the decoder has stored an error other than [io.EOF], the loop makes
    no progress. *)
Lemma serve_stuck E fuel dec st e :
  err dec = Some e -> e <> io_EOF -> serve E fuel dec st = Running dec st.
Proof.
  intros He Hne. induction fuel as [| fuel IH]; [reflexivity |].
  cbn [serve]. unfold Decode. rewrite He.
  destruct e; try exact IH. contradiction.
Qed.

(** A value of the wrong shape is skipped and the loop goes on. *)
Lemma serve_skips_mismatch E fuel rest cut st :
  serve E (S fuel) {| pending := UMismatch :: rest; truncated := cut; err := None |} st
  = serve E fuel {| pending := rest; truncated := cut; err := None |} st.
Proof. reflexivity. Qed.

(** End of input between two values ends the loop. *)
Lemma serve_breaks_at_EOF E fuel st :
  serve E (S fuel) {| pending := []; truncated := false; err := None |} st = Broke st.
Proof. reflexivity. Qed.

(** C3. A syntax error ahead of a well-formed request: however long the loop
    runs it is still running, has written nothing, and has not read the
    request.  Likewise a stream cut inside its last value never ends the loop. *)
Theorem syntax_error_stalls_the_loop fuel :
  (exists dec,
      serve Demo.chromium fuel
        (NewDecoder [USyntax; UValue (Demo.request 1 "initialize" None)] false)
        initial
      = Running dec initial
      /\ pending dec = [USyntax; UValue (Demo.request 1 "initialize" None)])
  /\ main Demo.chromium fuel [USyntax; UValue (Demo.request 1 "initialize" None)] false
     = None
  /\ main Demo.chromium fuel [] true = None.
Proof.
  assert (H1 : exists dec,
             serve Demo.chromium fuel
               (NewDecoder [USyntax; UValue (Demo.request 1 "initialize" None)] false)
               initial
             = Running dec initial
             /\ pending dec = [USyntax; UValue (Demo.request 1 "initialize" None)]).
  { destruct fuel as [| fuel]; [eexists; split; reflexivity |].
    cbn [serve Decode NewDecoder err pending truncated].
    eexists. split; [now apply (serve_stuck _ _ _ _ SyntaxError) | reflexivity]. }
  split; [exact H1 |]. split.
  - unfold main. destruct H1 as (dec & -> & _). reflexivity.
  - unfold main. destruct fuel as [| fuel]; [reflexivity |].
    cbn [serve Decode NewDecoder err pending truncated].
    now rewrite (serve_stuck _ _ _ _ io_ErrUnexpectedEOF).
Qed.

(** ** The description's scenarios, run *)

Example scenario_navigate :
  handleRequest Demo.chromium
    (Demo.call 1 "rod_navigate" [("url", VString "http://localhost:8080")])
    initial
  = Returns
      (resultResponse
         (Demo.call 1 "rod_navigate" [("url", VString "http://localhost:8080")])
         (ContentResult "Successfully navigated to http://localhost:8080"))
      (set_trace
         (trace Demo.started
          ++ [EvNavigate 0 [] "http://localhost:8080"; EvWaitLoad 0 []])
         Demo.started).
Proof. reflexivity. Qed.

Example scenario_click_fails :
  handleRequest Demo.chromium (Demo.call 2 "rod_click" [("selector", VString "##")])
    Demo.started
  = Returns
      (errorResponse (Demo.call 2 "rod_click" [("selector", VString "##")])
         (-32603) "element not found: ##")
      (set_trace (trace Demo.started ++ [EvElement 0 [] "##"]) Demo.started).
Proof. reflexivity. Qed.

Example scenario_screenshot :
  handleRequest Demo.chromium
    (Demo.call 3 "rod_screenshot"
       [("fullPage", VBool true); ("filename", VString "landing-page.png")])
    Demo.started
  = Returns
      (resultResponse
         (Demo.call 3 "rod_screenshot"
            [("fullPage", VBool true); ("filename", VString "landing-page.png")])
         (ContentResult "Screenshot saved to /tmp/rod-screenshots/landing-page.png"))
      (set_trace
         (trace Demo.started
          ++ [EvMkdirAll "/tmp/rod-screenshots" mode_0755; EvScreenshot 0 [] true;
              EvWriteFile "/tmp/rod-screenshots/landing-page.png" "PNG" mode_0644])
         Demo.started).
Proof. reflexivity. Qed.

Example scenario_unknown_method :
  handleRequest Demo.chromium (Demo.request 9 "foo/bar" None) initial
  = Returns
      (errorResponse (Demo.request 9 "foo/bar" None) (-32601)
         "Method not found: foo/bar")
      initial.
Proof. reflexivity. Qed.

(** Two tool calls in a row start one browser. *)
Example scenario_one_session :
  forall st,
    main Demo.chromium 3
      [ UValue (Demo.call 1 "rod_get_text" [("selector", VString "h1")]);
        UValue (Demo.call 2 "rod_get_text" [("selector", VString "h2")]) ]
      false
    = Some (ExitNormal, st) ->
    List.filter (fun ev => match ev with EvLaunch _ => true | _ => false end) (trace st)
    = [EvLaunch "/usr/bin/chromium"].
Proof. intros st [= <-]. reflexivity. Qed.

(** * Further properties of the code *)

(** ** Routing *)


(** X1. The switch of [handleToolCall] recognises exactly the names the
    catalog advertises, and the catalog lists no name twice. *)
Theorem dispatched_tools_are_the_advertised_ones :
  (forall name, is_Some (toolCase name) <-> In name (map Name getTools))
  /\ NoDup (map Name getTools)
  /\ (forall t, toolCase (toolName t) = Some t).
Proof.
  split; [| split].
  - intros name. split.
    + intros [t H]. apply toolCase_toolName in H. subst name.
      destruct t; cbn; tauto.
    + cbn. intros H.
      repeat (destruct H as [<- | H]; [eexists; reflexivity |]).
      contradiction.
  - cbn.
    repeat (apply NoDup_cons; split;
            [ intros Hin;
              repeat (apply elem_of_cons in Hin as [Hin | Hin]; [discriminate |]);
              now apply elem_of_nil in Hin
            | ]).
    apply NoDup_nil_2.
  - intros t. destruct t; reflexivity.
Qed.

(** X2. A request that is not a [tools/call], or whose params do not decode,
    is answered without touching anything: the server fields, the page store,
    the trace of outside calls and the output are as before.  In particular it
    never starts the browser. *)
Theorem only_decodable_tool_calls_touch_the_state E req st :
  Method req <> "tools/call" \/ (exists msg, Unmarshal E (Params req) = Fail msg) ->
  exists resp, handleRequest E req st = Returns resp st.
Proof.
  intros H. unfold handleRequest.
  destruct (String.eqb (Method req) "initialize"); [eexists; reflexivity |].
  destruct (String.eqb (Method req) "tools/list"); [eexists; reflexivity |].
  destruct (String.eqb_spec (Method req) "tools/call") as [Hm | Hm];
    [| eexists; reflexivity].
  destruct H as [H | [msg H]]; [contradiction |].
  unfold handleToolCall. rewrite H. eexists. reflexivity.
Qed.

(** Params that are an array, on a fresh server. *)
Lemma undecodable_params_example :
  exists resp,
    handleRequest Demo.chromium
      (Demo.request 1 "tools/call" (Some (VSlice []))) initial
    = Returns resp initial.
Proof.
  apply (only_decodable_tool_calls_touch_the_state Demo.chromium
           (Demo.request 1 "tools/call" (Some (VSlice []))) initial).
  right. eexists. reflexivity.
Defined.

(** X3. The error of a response has one of three codes, and each code tells
    its origin: -32601 is an unknown method or an unknown tool and quotes the
    name, -32602 is a [tools/call] whose params did not decode and quotes the
    decoder's message, -32603 is a [tools/call] that got as far as the
    Session. *)
Theorem error_codes_tell_their_origin E req st resp st' e :
  handleRequest E req st = Returns resp st' ->
  Error resp = Some e ->
  (Code e = -32601
   /\ (Message e = "Method not found: " +:+ Method req
       \/ exists name arguments,
           Unmarshal E (Params req) = OK (name, arguments)
           /\ toolCase name = None
           /\ Message e = "Unknown tool: " +:+ name))
  \/ (Code e = -32602
      /\ Method req = "tools/call"
      /\ exists msg,
          Unmarshal E (Params req) = Fail msg
          /\ Message e = "Invalid params: " +:+ msg)
  \/ (Code e = -32603
      /\ Method req = "tools/call"
      /\ exists name arguments, Unmarshal E (Params req) = OK (name, arguments)).
Proof.
  unfold handleRequest.
  destruct (String.eqb (Method req) "initialize"); [intros [= <- <-]; discriminate |].
  destruct (String.eqb (Method req) "tools/list"); [intros [= <- <-]; discriminate |].
  destruct (String.eqb_spec (Method req) "tools/call") as [Hm | Hm].
  2:{ intros [= <- <-] [= <-]. left. split; [reflexivity | now left]. }
  unfold handleToolCall.
  destruct (Unmarshal E (Params req)) as [[name arguments] | msg] eqn:HU.
  2:{ intros [= <- <-] [= <-]. right. left. eauto. }
  intros H.
  apply bind_Returns in H as (b & st1 & _ & H).
  apply bind_Returns in H as (r & st2 & _ & H).
  destruct r as [err1 |].
  { injection H as <- <-. intros [= <-]. right. right. eauto. }
  destruct (toolCase name) as [t |] eqn:Ht.
  2:{ injection H as <- <-. intros [= <-]. left. split; [reflexivity |].
      right. eauto. }
  apply bind_Returns in H as (r & st3 & _ & H).
  destruct r; injection H as <- <-; [discriminate |].
  intros [= <-]. right. right. eauto.
Qed.

(** An unknown method. *)
Lemma error_code_example :
  (Code {| Code := -32601; Message := "Method not found: foo/bar" |} = -32601
   /\ (Message {| Code := -32601; Message := "Method not found: foo/bar" |}
       = "Method not found: " +:+ Method (Demo.request 9 "foo/bar" None)
       \/ exists name arguments,
           Unmarshal Demo.chromium (Params (Demo.request 9 "foo/bar" None))
           = OK (name, arguments)
           /\ toolCase name = None
           /\ Message {| Code := -32601; Message := "Method not found: foo/bar" |}
              = "Unknown tool: " +:+ name))
  \/ (Code {| Code := -32601; Message := "Method not found: foo/bar" |} = -32602
      /\ Method (Demo.request 9 "foo/bar" None) = "tools/call"
      /\ exists msg,
          Unmarshal Demo.chromium (Params (Demo.request 9 "foo/bar" None)) = Fail msg
          /\ Message {| Code := -32601; Message := "Method not found: foo/bar" |}
             = "Invalid params: " +:+ msg)
  \/ (Code {| Code := -32601; Message := "Method not found: foo/bar" |} = -32603
      /\ Method (Demo.request 9 "foo/bar" None) = "tools/call"
      /\ exists name arguments,
          Unmarshal Demo.chromium (Params (Demo.request 9 "foo/bar" None))
          = OK (name, arguments)).
Proof.
  apply (error_codes_tell_their_origin Demo.chromium
           (Demo.request 9 "foo/bar" None) initial
           (errorResponse (Demo.request 9 "foo/bar" None) (-32601)
              "Method not found: foo/bar")
           initial);
    reflexivity.
Defined.

(** X4. Once the Session stands, the response of a [tools/call] for a known
    tool is the tool's outcome wrapped: a text becomes the one content item of
    a result, an error message becomes, unchanged, the message of an error
    with code -32603; the state is the one the tool left. *)
Theorem tool_outcome_is_wrapped E req st st1 name t arguments r st2 :
  Method req = "tools/call" ->
  Unmarshal E (Params req) = OK (name, arguments) ->
  toolCase name = Some t ->
  ensured E st st1 ->
  runTool E t arguments st1 = Returns r st2 ->
  handleRequest E req st = Returns (wrap req r) st2.
Proof.
  intros Hm HU Ht Hens Hrun.
  rewrite (handleRequest_call _ _ _ Hm).
  rewrite (handleToolCall_ensured _ _ _ _ _ _ HU Hens).
  unfold dispatch. rewrite Ht. rewrite (bind_eq _ _ _ _ _ Hrun).
  now destruct r.
Qed.

(** [rod_eval] on a live Session. *)
Lemma tool_outcome_example :
  handleRequest Demo.chromium (Demo.call 8 "rod_eval" [("script", VString "1+1")])
    Demo.started
  = Returns
      (wrap (Demo.call 8 "rod_eval" [("script", VString "1+1")])
         (OK "JavaScript result: 2"))
      (set_trace (trace Demo.started ++ [EvEval 0 [] "1+1"]) Demo.started).
Proof.
  apply (tool_outcome_is_wrapped Demo.chromium _ Demo.started Demo.started
           "rod_eval" rod_eval (list_to_map [("script", VString "1+1")]));
    try reflexivity.
  apply ensured_kept, started_live.
Defined.

(** ** What a tool can and cannot do *)

Section Ends.

Variable R : State -> State -> Prop.
Hypothesis R_refl : forall st, R st st.
Hypothesis R_trans : forall st1 st2 st3, R st1 st2 -> R st2 st3 -> R st1 st3.
Hypothesis R_emit :
  forall st ev, toolEvent ev = true -> R st (set_trace (trace st ++ [ev]) st).
Hypothesis R_alloc : forall st o, R st (set_pages (pages st ++ [o]) st).

Lemma ends_ret {A} (Q : A -> Prop) a : Q a -> ends R Q (ret a).
Proof. intros H st. cbn. auto. Qed.

Lemma ends_bind {A B} (Q : B -> Prop) (m : M A) (k : A -> M B) :
  ends R (fun _ => True) m -> (forall a, ends R Q (k a)) -> ends R Q (bind m k).
Proof.
  intros Hm Hk st. unfold bind. specialize (Hm st).
  destruct (m st) as [a st1 | st1]; [| exact Hm].
  destruct Hm as [Hm _]. specialize (Hk a st1).
  destruct (k a st1) as [b st2 | st2]; [destruct Hk as [Hk HQ]; split |]; eauto.
Qed.

Lemma ends_get : ends R (fun _ => True) get.
Proof. intros st. cbn. auto. Qed.

Lemma ends_emit ev : toolEvent ev = true -> ends R (fun _ => True) (emit ev).
Proof. intros H st. cbn. auto. Qed.

Lemma ends_deref p : ends R (fun _ => True) (deref p).
Proof.
  intros st. unfold deref.
  destruct p as [a |]; [destruct (pages st !! a) |]; cbn; auto.
Qed.

Lemma ends_alloc o : ends R (fun _ => True) (alloc o).
Proof. intros st. cbn. auto. Qed.

Ltac ends_step :=
  first
    [ apply ends_get | apply ends_deref | apply ends_alloc
    | apply ends_emit; reflexivity
    | apply ends_bind; [| intros ? ]
    | match goal with
      | |- ends _ _ (match ?x with _ => _ end) => destruct x
      | |- ends _ _ (ret (match ?x with _ => _ end)) => destruct x
      | |- ends _ _ (let _ := _ in _) => cbv zeta
      end
    | apply ends_ret; first [ exact I | cbn; discriminate ] ].

(** Whatever a tool does stays within [R], and its text is not empty. *)
Lemma ends_runTool E t arguments : ends R okText (runTool E t arguments).
Proof.
  destruct t; cbn [runTool];
    unfold navigate, click, screenshot, getAttribute, getText, waitFor, eval, fill,
      s_page, Page_Navigate, Page_WaitLoad, Page_Element, Page_Eval,
      Page_Screenshot, Page_Timeout, Element_Click, Element_Attribute,
      Element_Text, Element_SelectAllText, Element_Input, time_Now_Unix,
      os_MkdirAll, os_WriteFile;
    repeat ends_step.
Qed.

Lemma ends_dispatch E req name arguments :
  ends R (fun _ => True) (dispatch E req name arguments).
Proof.
  unfold dispatch. destruct (toolCase name) as [t |]; [| now apply ends_ret].
  apply ends_bind.
  - intros st. pose proof (ends_runTool E t arguments st) as H.
    destruct (runTool E t arguments st); tauto.
  - intros [text | e]; now apply ends_ret.
Qed.

End Ends.

Lemma extends_refl st : extends st st.
Proof.
  repeat split; [exists []; now rewrite app_nil_r |].
  exists []. split; [now rewrite app_nil_r | constructor].
Qed.

Lemma extends_trans st1 st2 st3 : extends st1 st2 -> extends st2 st3 -> extends st1 st3.
Proof.
  intros (Hs & Ho & (l & Hp) & (evs & Ht & Hevs))
         (Hs' & Ho' & (l' & Hp') & (evs' & Ht' & Hevs')).
  repeat split; try congruence.
  - exists (l ++ l'). rewrite Hp', Hp. now rewrite app_assoc.
  - exists (evs ++ evs'). split; [rewrite Ht', Ht; now rewrite app_assoc |].
    now apply Forall_app.
Qed.

Lemma extends_emit st ev :
  toolEvent ev = true -> extends st (set_trace (trace st ++ [ev]) st).
Proof.
  intros H. repeat split; [exists []; cbn; now rewrite app_nil_r |].
  exists [ev]. split; [reflexivity | now constructor].
Qed.

Lemma extends_alloc st o : extends st (set_pages (pages st ++ [o]) st).
Proof.
  repeat split; [now exists [o] |].
  exists []. split; [cbn; now rewrite app_nil_r | constructor].
Qed.

Lemma dispatch_extends E req name arguments st :
  extends st (final (dispatch E req name arguments st)).
Proof.
  pose proof (ends_dispatch extends extends_refl extends_trans extends_emit
                extends_alloc E req name arguments st) as H.
  destruct (dispatch E req name arguments st); cbn; tauto.
Qed.

(** X5. However a tool ends, returning or panicking, with whatever
    arguments and in whatever state: it has not changed the server's browser
    and page handles nor the output, the page store has only grown, and the
    calls it made are all page, element, clock or file calls (none locates,
    launches, connects to or closes a browser or opens or closes a page). *)
Theorem tools_leave_the_session_alone E t arguments st :
  extends st (final (runTool E t arguments st)).
Proof.
  pose proof (ends_runTool extends extends_refl extends_trans extends_emit
                extends_alloc E t arguments st) as H.
  destruct (runTool E t arguments st); cbn; tauto.
Qed.

Lemma runTool_okText E t arguments st r st' :
  runTool E t arguments st = Returns r st' -> okText r.
Proof.
  intros H.
  pose proof (ends_runTool (fun _ _ => True) (fun _ => I) (fun _ _ _ _ _ => I)
                (fun _ _ _ => I) (fun _ _ => I) E t arguments st) as Hr.
  rewrite H in Hr. tauto.
Qed.

(** X6. The text of a tool result is never empty: whenever a request is
    answered with a content result, its text has at least one character. *)
Theorem tool_result_text_is_not_empty E req st resp st' text :
  handleRequest E req st = Returns resp st' ->
  Result resp = Some (ContentResult text) ->
  text <> "".
Proof.
  unfold handleRequest.
  repeat (destruct (String.eqb _ _)); try (intros [= <- <-]; discriminate).
  unfold handleToolCall.
  destruct (Unmarshal E (Params req)) as [[name arguments] | msg];
    [| intros [= <- <-]; discriminate].
  intros H.
  apply bind_Returns in H as (b & st1 & _ & H).
  apply bind_Returns in H as (r & st2 & _ & H).
  destruct r; [injection H as <- <-; discriminate |].
  destruct (toolCase name) as [t |]; [| injection H as <- <-; discriminate].
  apply bind_Returns in H as (r & st3 & Hrun & H).
  apply runTool_okText in Hrun.
  destruct r; injection H as <- <-; [| discriminate].
  now intros [= <-].
Qed.

(** The text of an empty selector's click. *)
Lemma tool_result_text_example : "Successfully clicked " +:+ "" <> "".
Proof.
  apply (tool_result_text_is_not_empty Demo.chromium
           (Demo.call 1 "rod_click" [("selector", VString "")]) Demo.started
           (resultResponse (Demo.call 1 "rod_click" [("selector", VString "")])
              (ContentResult ("Successfully clicked " +:+ "")))
           (set_trace (trace Demo.started
                       ++ [EvElement 0 [] ""; EvClick 7 "left" 1]) Demo.started));
    reflexivity.
Defined.

(** ** Panics *)

Section ReturnsOn.

Variable a : nat.

Lemma returnsOn_ret {A} (Q : A -> Prop) x : Q x -> returnsOn a Q (ret x).
Proof. intros H st Hst. exists x, st. auto. Qed.

Lemma returnsOn_bind {A B} (Q1 : A -> Prop) (Q : B -> Prop) (m : M A) (k : A -> M B) :
  returnsOn a Q1 m ->
  (forall x, Q1 x -> returnsOn a Q (k x)) ->
  returnsOn a Q (bind m k).
Proof.
  intros Hm Hk st Hst. destruct (Hm st Hst) as (x & st1 & Hx & Hst1 & HQ1).
  unfold bind. rewrite Hx. now apply Hk.
Qed.

Lemma returnsOn_s_page : returnsOn a (fun p => p = Some a) s_page.
Proof. intros st Hst. exists (page (srv st)), st. repeat split; apply Hst. Qed.

Lemma returnsOn_deref : returnsOn a (fun _ => True) (deref (Some a)).
Proof.
  intros st Hst. destruct Hst as [Hp [po Ho]]. unfold deref. rewrite Ho.
  exists (a, po), st. repeat split; eauto.
Qed.

Lemma returnsOn_emit ev : returnsOn a (fun _ => True) (emit ev).
Proof. intros st Hst. eexists _, _. split; [reflexivity |]. split; [exact Hst | exact I]. Qed.

Lemma returnsOn_alloc o : returnsOn a (fun _ => True) (alloc o).
Proof.
  intros st [Hp [po Ho]]. eexists _, _. split; [reflexivity |].
  split; [| exact I]. split; [exact Hp |]. exists po. cbn.
  rewrite lookup_app_l; [exact Ho | now apply (lookup_lt_Some _ _ po)].
Qed.

Ltac returns_step :=
  first
    [ apply returnsOn_deref | apply returnsOn_alloc | apply returnsOn_emit
    | apply (returnsOn_bind (fun p => p = Some a)); [apply returnsOn_s_page | intros ? -> ]
    | apply (returnsOn_bind (fun _ => True)); [| intros ? _ ]
    | match goal with
      | |- returnsOn _ _ (match ?x with _ => _ end) => destruct x
      | |- returnsOn _ _ (let _ := _ in _) => cbv zeta
      end
    | apply returnsOn_ret; exact I ].

(** On a live page no tool panics. *)
Lemma returnsOn_runTool E t arguments :
  returnsOn a (fun _ => True) (runTool E t arguments).
Proof.
  destruct t; cbn [runTool];
    unfold navigate, click, screenshot, getAttribute, getText, waitFor, eval, fill,
      Page_Navigate, Page_WaitLoad, Page_Element, Page_Eval,
      Page_Screenshot, Page_Timeout, Element_Click, Element_Attribute,
      Element_Text, Element_SelectAllText, Element_Input, time_Now_Unix,
      os_MkdirAll, os_WriteFile;
    repeat returns_step.
Qed.

End ReturnsOn.

Lemma live_onPage st : live st -> exists a, onPage a st.
Proof. intros (b & a & po & _ & Hp & Ho). exists a. split; eauto. Qed.

Lemma dispatch_returns E req name arguments st :
  live st -> exists resp st', dispatch E req name arguments st = Returns resp st'.
Proof.
  intros Hl. unfold dispatch.
  destruct (toolCase name) as [t |]; [| eexists _, _; reflexivity].
  destruct (live_onPage _ Hl) as [a Ha].
  destruct (returnsOn_runTool a E t arguments st Ha) as (r & st' & Hr & _).
  rewrite (bind_eq _ _ _ _ _ Hr). destruct r; eexists _, _; reflexivity.
Qed.

Lemma handleRequest_Panics E req st st' :
  consistent st ->
  handleRequest E req st = Panics st' ->
  Method req = "tools/call"
  /\ (exists name arguments, Unmarshal E (Params req) = OK (name, arguments))
  /\ browser (srv st) = None
  /\ initBrowser E st = Panics st'.
Proof.
  intros Hc. unfold handleRequest.
  destruct (String.eqb (Method req) "initialize"); [discriminate |].
  destruct (String.eqb (Method req) "tools/list"); [discriminate |].
  destruct (String.eqb_spec (Method req) "tools/call") as [Hm | Hm]; [| discriminate].
  unfold handleToolCall.
  destruct (Unmarshal E (Params req)) as [[name arguments] | msg] eqn:HU;
    [| discriminate].
  rewrite (bind_eq _ _ st (browser (srv st)) st) by reflexivity.
  intros H.
  assert (Hlive : forall st1, live st1 ->
            (match toolCase name with
             | Some t =>
                 r <- runTool E t arguments ;;
                 match r with
                 | OK result => ret (resultResponse req (ContentResult result))
                 | Fail err => ret (errorResponse req (-32603) err)
                 end
             | None => ret (errorResponse req (-32601) ("Unknown tool: " +:+ name))
             end) st1 <> Panics st').
  { intros st1 Hl Hp.
    destruct (dispatch_returns E req name arguments st1 Hl) as (resp & st2 & Hd).
    unfold dispatch in Hd. congruence. }
  destruct Hc as [Hb | Hl].
  - rewrite Hb in H. unfold bind in H.
    destruct (initBrowser E st) as [r st1 | st1] eqn:Hinit.
    + exfalso. apply initBrowser_Returns in Hinit as (-> & u & t & ->).
      exact (Hlive _ (created_live E st u t) H).
    + injection H as <-. eauto 10.
  - exfalso. destruct Hl as (b & a & po & Hb & Hrest). rewrite Hb in H.
    apply (Hlive st); [now exists b, a, po | exact H].
Qed.

(** X7. In a state where the Session is absent or live (every state the
    loop can be in), a request can panic in one way only: it is a
    [tools/call] whose params decode, there is no browser yet, and the panic
    is the one of [initBrowser], raised before any tool is looked up.  With a
    live Session no request panics. *)
Theorem panics_come_from_initBrowser_only E req st st' :
  consistent st ->
  handleRequest E req st = Panics st' ->
  Method req = "tools/call"
  /\ (exists name arguments, Unmarshal E (Params req) = OK (name, arguments))
  /\ browser (srv st) = None
  /\ initBrowser E st = Panics st'.
Proof. apply handleRequest_Panics. Qed.

(** A first call on a machine without a browser. *)
Lemma panic_example :
  Method (Demo.call 1 "rod_click" [("selector", VString "a")]) = "tools/call"
  /\ (exists name arguments,
         Unmarshal Demo.noBrowser
           (Params (Demo.call 1 "rod_click" [("selector", VString "a")]))
         = OK (name, arguments))
  /\ browser (srv initial) = None
  /\ initBrowser Demo.noBrowser initial
     = Panics (set_trace [EvLookPath; EvLaunch ""] initial).
Proof.
  apply (panics_come_from_initBrowser_only Demo.noBrowser
           (Demo.call 1 "rod_click" [("selector", VString "a")]) initial).
  - now left.
  - reflexivity.
Defined.

(** ** The life of the process *)

(** Where [initBrowser] ends, returning or panicking: it has launched once
    and written nothing. *)
Lemma initBrowser_final E st :
  stdout (final (initBrowser E st)) = stdout st
  /\ exists evs,
      trace (final (initBrowser E st)) = trace st ++ evs /\ launches evs = 1%nat.
Proof.
  unfold initBrowser, launcher_LookPath, MustLaunch, MustConnect, MustPage,
    set_browser, set_page, s_browser, bind, emit, ret, modify, get, alloc, panic.
  cbn.
  destruct (Launch E _) as [u |]; cbn.
  2:{ split; [reflexivity |]. eexists. rewrite <- app_assoc. split; reflexivity. }
  destruct (Connect E _); cbn.
  2:{ split; [reflexivity |]. eexists. rewrite <- !app_assoc. split; reflexivity. }
  destruct (NewPage E _) as [t |]; cbn;
    (split; [reflexivity |]); eexists; rewrite <- !app_assoc; split; reflexivity.
Qed.

Lemma launches_app t1 t2 : launches (t1 ++ t2) = (launches t1 + launches t2)%nat.
Proof. unfold launches. now rewrite List.filter_app, length_app. Qed.

Lemma launches_toolEvents evs :
  Forall (fun ev => toolEvent ev = true) evs -> launches evs = 0%nat.
Proof.
  unfold launches. induction 1 as [| ev evs Hev _ IH]; [reflexivity |].
  cbn. destruct ev; try discriminate; exact IH.
Qed.

Lemma extends_launches st st' :
  extends st st' -> launches (trace st') = launches (trace st).
Proof.
  intros (_ & _ & _ & evs & -> & Hevs).
  rewrite launches_app, (launches_toolEvents _ Hevs). lia.
Qed.

(** An answered request either left the state alone or ran on the ensured
    Session and extended it. *)
Lemma handleRequest_Returns_shape E req st resp st' :
  consistent st ->
  handleRequest E req st = Returns resp st' ->
  st' = st \/ exists st1, ensured E st st1 /\ extends st1 st'.
Proof.
  intros Hc. unfold handleRequest.
  repeat (destruct (String.eqb _ _)); try (intros [= <- <-]; now left).
  unfold handleToolCall.
  destruct (Unmarshal E (Params req)) as [[name arguments] | e];
    [| intros [= <- <-]; now left].
  rewrite (bind_eq _ _ st (browser (srv st)) st) by reflexivity.
  intros H. apply bind_Returns in H as (r & st1 & Hens & H).
  right. exists st1.
  assert (Hens1 : ensured E st st1 /\ r = None).
  { destruct Hc as [Hb | Hl].
    - rewrite Hb in Hens.
      destruct (initBrowser_Returns _ _ _ _ Hens) as (-> & _).
      split; [now apply ensured_created | reflexivity].
    - pose proof Hl as (b & a & po & Hb & _). rewrite Hb in Hens.
      injection Hens as <- <-. split; [now apply ensured_kept | reflexivity]. }
  destruct Hens1 as [Hens1 ->]. split; [exact Hens1 |].
  pose proof (dispatch_extends E req name arguments st1) as Hd.
  unfold dispatch in Hd. now rewrite H in Hd.
Qed.

Lemma Encode_launches E resp st :
  launches (trace (Encode E resp st)) = launches (trace st).
Proof.
  unfold Encode. destruct (Write E _ _ _); [| reflexivity].
  cbn [set_trace trace]. rewrite launches_app. cbn. lia.
Qed.

Lemma reachable_launchedOnce E st : reachable E st -> launchedOnce st.
Proof.
  induction 1 as [| st req resp st' Hr IH H]; [reflexivity |].
  unfold launchedOnce in *. rewrite Encode_launches, Encode_srv.
  destruct (handleRequest_Returns_shape _ _ _ _ _ (reachable_consistent _ _ Hr) H)
    as [-> | (st1 & Hens & Hext)]; [exact IH |].
  rewrite (extends_launches _ _ Hext).
  destruct Hext as (-> & _).
  destruct Hens as [Hl | st1 Hb Hinit]; [exact IH |].
  apply initBrowser_Returns in Hinit as (_ & u & t & ->).
  rewrite Hb in IH. cbn [created trace srv browser].
  rewrite launches_app, IH. reflexivity.
Qed.

(** Where the loop stopped: in a state it can be in, or in the state a
    request panicked in. *)
Lemma serve_stopped E fuel : forall dec st ex st0,
  reachable E st ->
  stopped (serve E fuel dec st) = Some (ex, st0) ->
  match ex with
  | ExitNormal => reachable E st0
  | ExitPanic =>
      exists st1 req, reachable E st1 /\ handleRequest E req st1 = Panics st0
  end.
Proof.
  induction fuel as [| fuel IH]; intros dec st ex st0 Hst; cbn [serve stopped].
  - discriminate.
  - destruct (Decode dec) as [[req | e] dec'].
    + destruct (handleRequest E req st) as [resp st1 | st1] eqn:Hh; cbn [stopped].
      * apply IH. now apply (reachable_step E st req resp st1).
      * intros [= <- <-]. eauto.
    + destruct e; try (apply IH; exact Hst).
      now intros [= <- <-].
Qed.

(** X8. Over the whole life of the process, however it exits, the browser
    is launched at most once; and when the process exits at end of input, it
    was launched exactly once if a Session exists and never otherwise. *)
Theorem browser_is_launched_at_most_once E fuel input cut ex st :
  main E fuel input cut = Some (ex, st) ->
  (launches (trace st) <= 1)%nat
  /\ (ex = ExitNormal ->
      launches (trace st)
      = match browser (srv st) with Some _ => 1%nat | None => 0%nat end).
Proof.
  unfold main. intros H.
  assert (Hs : exists st0,
             stopped (serve E fuel (NewDecoder input cut) initial) = Some (ex, st0)
             /\ st = after_cleanup E st0).
  { destruct (serve E fuel (NewDecoder input cut) initial); try discriminate;
      injection H as <- <-; eauto. }
  destruct Hs as (st0 & Hs & ->).
  apply (serve_stopped E fuel _ initial) in Hs; [| constructor].
  rewrite after_cleanup_eq. cbn [set_trace trace srv].
  assert (Hcl : launches (closes (srv st0)) = 0%nat)
    by (unfold closes; destruct (page (srv st0)), (browser (srv st0)); reflexivity).
  rewrite launches_app, Hcl, Nat.add_0_r.
  destruct ex.
  - apply reachable_launchedOnce in Hs. unfold launchedOnce in Hs. rewrite Hs.
    split; [destruct (browser (srv st0)); lia | reflexivity].
  - destruct Hs as (st1 & req & Hr & Hp). split; [| discriminate].
    apply handleRequest_Panics in Hp as (_ & _ & Hb & Hp);
      [| now apply (reachable_consistent E)].
    pose proof (reachable_launchedOnce _ _ Hr) as H1. unfold launchedOnce in H1.
    rewrite Hb in H1.
    destruct (initBrowser_final E st1) as (_ & evs & Ht & Hevs).
    rewrite Hp in Ht. cbn [final] in Ht. rewrite Ht, launches_app. lia.
Qed.

(** Two calls and end of input. *)
Lemma one_launch_example :
  (launches
     (trace Demo.started
      ++ [EvElement 0 [] "h1"; EvText 7; EvElement 0 [] "h2"; EvText 7;
          EvPageClose 0; EvBrowserClose {| ControlURL := "ws://127.0.0.1:9222" |}])
   <= 1)%nat
  /\ (ExitNormal = ExitNormal ->
      launches
        (trace Demo.started
         ++ [EvElement 0 [] "h1"; EvText 7; EvElement 0 [] "h2"; EvText 7;
             EvPageClose 0; EvBrowserClose {| ControlURL := "ws://127.0.0.1:9222" |}])
      = 1%nat).
Proof.
  apply (browser_is_launched_at_most_once Demo.chromium 3
           [ UValue (Demo.call 1 "rod_get_text" [("selector", VString "h1")]);
             UValue (Demo.call 2 "rod_get_text" [("selector", VString "h2")]) ]
           false ExitNormal
           {| srv := srv Demo.started;
              pages := pages Demo.started;
              trace := trace Demo.started
                       ++ [EvElement 0 [] "h1"; EvText 7; EvElement 0 [] "h2"; EvText 7;
                           EvPageClose 0;
                           EvBrowserClose {| ControlURL := "ws://127.0.0.1:9222" |}];
              stdout := [ wrap (Demo.call 1 "rod_get_text" [("selector", VString "h1")])
                            (OK "Text content of h1: 'hello'");
                          wrap (Demo.call 2 "rod_get_text" [("selector", VString "h2")])
                            (OK "Text content of h2: 'hello'") ] |}).
  reflexivity.
Defined.






(** ** The tools on a live page *)

(** Symbolic execution on a state whose page handle and page object are
    known: unfold the calls, read the handle and the object, and put the
    traces in list form. *)
Ltac on_page Hp Ho :=
  unfold s_page, Page_Navigate, Page_WaitLoad, Page_Element, Page_Eval,
    Page_Screenshot, Element_Click, Element_Attribute, Element_Text,
    Element_SelectAllText, Element_Input, time_Now_Unix, os_MkdirAll,
    os_WriteFile, deref, emit, bind, get, ret;
  cbn [srv pages trace stdout set_trace set_pages set_srv fst snd];
  rewrite ?Hp; cbn [srv pages trace stdout set_trace set_pages set_srv fst snd];
  rewrite ?Ho; cbn [srv pages trace stdout set_trace set_pages set_srv fst snd];
  rewrite <- ?app_assoc; cbn [app].

(** X10. [navigate] with a string [url] on a live page: the page is told to
    navigate, and only if that succeeds it is told to wait for the load, and
    only if that succeeds too the text confirms the URL.  The error of
    whichever call fails is returned as it is, and after a failed navigation
    no wait is made. *)
Theorem navigate_waits_for_load E arguments st a po url :
  page (srv st) = Some a ->
  pages st !! a = Some po ->
  arguments !! "url" = Some (VString url) ->
  navigate E arguments st
  = match Navigate E (trace st ++ [EvNavigate a (timeouts po) url]) with
    | Some err =>
        Returns (Fail err)
          (set_trace (trace st ++ [EvNavigate a (timeouts po) url]) st)
    | None =>
        Returns
          match WaitLoad E (trace st ++ [EvNavigate a (timeouts po) url;
                                         EvWaitLoad a (timeouts po)]) with
          | Some err => Fail err
          | None => OK ("Successfully navigated to " +:+ url)
          end
          (set_trace (trace st ++ [EvNavigate a (timeouts po) url;
                                   EvWaitLoad a (timeouts po)]) st)
    end.
Proof.
  intros Hp Ho Hurl. unfold navigate. rewrite Hurl. cbn [assert_string].
  on_page Hp Ho.
  destruct (Navigate E _); [reflexivity |].
  on_page Hp Ho.
  destruct (WaitLoad E _); reflexivity.
Qed.

(** The first call of a fresh server's life, to a page that loads. *)
Lemma navigate_example :
  navigate Demo.chromium (list_to_map [("url", VString "http://localhost:8080")])
    Demo.started
  = Returns (OK "Successfully navigated to http://localhost:8080")
      (set_trace
         (trace Demo.started
          ++ [EvNavigate 0 [] "http://localhost:8080"; EvWaitLoad 0 []])
         Demo.started).
Proof.
  rewrite (navigate_waits_for_load Demo.chromium
             (list_to_map [("url", VString "http://localhost:8080")])
             Demo.started 0%nat
             {| target := 1; timeouts := [] |} "http://localhost:8080");
    reflexivity.
Defined.

(** X11. The four tools that act on an element ([rod_click],
    [rod_get_attribute], [rod_get_text], [rod_fill]), called with valid
    arguments on a live page whose lookup fails: the error is "element not
    found: <selector>" whatever the lookup's own error said, the lookup is the
    only call made, and nothing is done to any element. *)
Theorem missing_element_is_reported_by_selector E t arguments st a po selector err :
  In t selectorTools ->
  (forall f, In f (requiredArguments t) -> is_Some (assert_string (arguments !! f))) ->
  arguments !! "selector" = Some (VString selector) ->
  page (srv st) = Some a ->
  pages st !! a = Some po ->
  FindElement E (trace st ++ [EvElement a (timeouts po) selector]) = Fail err ->
  runTool E t arguments st
  = Returns (Fail ("element not found: " +:+ selector))
      (set_trace (trace st ++ [EvElement a (timeouts po) selector]) st).
Proof.
  intros Ht Hargs Hsel Hp Ho Hfind.
  assert (Hreq : forall f, In f (requiredArguments t) ->
                           exists v, assert_string (arguments !! f) = Some v)
    by (intros f Hf; destruct (Hargs f Hf) as [v Hv]; eauto).
  rewrite requiredArguments_eq in Hreq.
  cbn in Ht.
  destruct Ht as [<- | [<- | [<- | [<- | []]]]]; cbn [runTool];
    unfold click, getAttribute, getText, fill; rewrite Hsel; cbn [assert_string].
  - on_page Hp Ho. now rewrite Hfind.
  - destruct (Hreq "attribute") as [v ->]; [cbn; tauto |].
    on_page Hp Ho. now rewrite Hfind.
  - on_page Hp Ho. now rewrite Hfind.
  - destruct (Hreq "text") as [v ->]; [cbn; tauto |].
    on_page Hp Ho. now rewrite Hfind.
Qed.

(** [rod_fill] on a selector that is not one. *)
Lemma missing_element_example :
  runTool Demo.chromium rod_fill
    (list_to_map [("selector", VString "##"); ("text", VString "hi")]) Demo.started
  = Returns (Fail ("element not found: " +:+ "##"))
      (set_trace
         (trace Demo.started
          ++ [EvElement 0 (timeouts {| target := 1; timeouts := [] |}) "##"])
         Demo.started).
Proof.
  apply (missing_element_is_reported_by_selector Demo.chromium rod_fill
           (list_to_map [("selector", VString "##"); ("text", VString "hi")])
           Demo.started 0%nat {| target := 1; timeouts := [] |} "##"
           "SyntaxError: not a valid selector");
    try reflexivity.
  - cbn. tauto.
  - intros f Hf. rewrite requiredArguments_eq in Hf.
    destruct Hf as [<- | [<- | []]]; eexists; reflexivity.
Defined.

(** X12. [fill] with string arguments on a live page whose lookup finds an
    element: the element's text is selected first, and only if that succeeds
    the new text is typed into the same element, so the text replaces what was
    there.  The error of whichever call fails is returned as it is, and after
    a failed selection nothing is typed. *)
Theorem fill_selects_then_types E arguments st a po selector text elem :
  page (srv st) = Some a ->
  pages st !! a = Some po ->
  arguments !! "selector" = Some (VString selector) ->
  arguments !! "text" = Some (VString text) ->
  FindElement E (trace st ++ [EvElement a (timeouts po) selector]) = OK elem ->
  fill E arguments st
  = match SelectAllText E (trace st ++ [EvElement a (timeouts po) selector;
                                        EvSelectAllText elem]) with
    | Some err =>
        Returns (Fail err)
          (set_trace (trace st ++ [EvElement a (timeouts po) selector;
                                   EvSelectAllText elem]) st)
    | None =>
        Returns
          match Input E (trace st ++ [EvElement a (timeouts po) selector;
                                      EvSelectAllText elem; EvInput elem text]) with
          | Some err => Fail err
          | None => OK ("Filled " +:+ selector +:+ " with '" +:+ text +:+ "'")
          end
          (set_trace (trace st ++ [EvElement a (timeouts po) selector;
                                   EvSelectAllText elem; EvInput elem text]) st)
    end.
Proof.
  intros Hp Ho Hsel Htext Hfind. unfold fill. rewrite Hsel, Htext. cbn [assert_string].
  on_page Hp Ho. rewrite Hfind.
  on_page Hp Ho.
  destruct (SelectAllText E _); [reflexivity |].
  on_page Hp Ho.
  destruct (Input E _); reflexivity.
Qed.

(** A search box filled. *)
Lemma fill_example :
  fill Demo.chromium (list_to_map [("selector", VString "#q"); ("text", VString "rocq")])
    Demo.started
  = Returns (OK "Filled #q with 'rocq'")
      (set_trace
         (trace Demo.started
          ++ [EvElement 0 [] "#q"; EvSelectAllText 7; EvInput 7 "rocq"])
         Demo.started).
Proof.
  rewrite (fill_selects_then_types Demo.chromium
             (list_to_map [("selector", VString "#q"); ("text", VString "rocq")])
             Demo.started 0%nat
             {| target := 1; timeouts := [] |} "#q" "rocq" 7%nat);
    reflexivity.
Defined.

(** X13. [screenshot] with a non-empty string [filename] on a live page:
    the directory [<TempDir>/rod-screenshots] is created first, whatever
    follows; then the page is captured, full page only if [fullPage] is the
    boolean true.  If the capture fails its error is returned and no file is
    written.  Otherwise exactly the captured bytes are written to
    [<dir>/<filename>], and the text names that path if the write succeeds. *)
Theorem screenshot_writes_only_what_it_captured E arguments st a po filename :
  page (srv st) = Some a ->
  pages st !! a = Some po ->
  arguments !! "filename" = Some (VString filename) ->
  filename <> "" ->
  let dir := Join E (TempDir E) "rod-screenshots" in
  let path := Join E dir filename in
  let fullPage :=
    match arguments !! "fullPage" with Some (VBool b) => b | _ => false end in
  let shot := [EvMkdirAll dir mode_0755; EvScreenshot a (timeouts po) fullPage] in
  screenshot E arguments st
  = match Screenshot E (trace st ++ shot) with
    | Fail err => Returns (Fail err) (set_trace (trace st ++ shot) st)
    | OK data =>
        Returns
          match WriteFile E (trace st ++ shot ++ [EvWriteFile path data mode_0644]) with
          | Some err => Fail err
          | None => OK ("Screenshot saved to " +:+ path)
          end
          (set_trace (trace st ++ shot ++ [EvWriteFile path data mode_0644]) st)
    end.
Proof.
  intros Hp Ho Hname Hne dir path fullPage shot.
  unfold screenshot. rewrite Hname. cbn [assert_string].
  destruct (String.eqb_spec filename "") as [-> | _]; [contradiction |].
  assert (Hfp : match assert_bool (arguments !! "fullPage") with
                | Some fp => fp
                | None => false
                end = fullPage).
  { unfold fullPage, assert_bool.
    destruct (arguments !! "fullPage") as [[]|]; reflexivity. }
  rewrite Hfp. fold dir. fold path.
  on_page Hp Ho. fold shot.
  destruct (Screenshot E _); [| reflexivity].
  on_page Hp Ho.
  destruct (WriteFile E _); reflexivity.
Qed.

(** The landing page, full page. *)
Lemma screenshot_example :
  screenshot Demo.chromium
    (list_to_map [("fullPage", VBool true); ("filename", VString "landing-page.png")])
    Demo.started
  = Returns (OK "Screenshot saved to /tmp/rod-screenshots/landing-page.png")
      (set_trace
         (trace Demo.started
          ++ [EvMkdirAll "/tmp/rod-screenshots" mode_0755; EvScreenshot 0 [] true;
              EvWriteFile "/tmp/rod-screenshots/landing-page.png" "PNG" mode_0644])
         Demo.started).
Proof.
  rewrite (screenshot_writes_only_what_it_captured Demo.chromium
             (list_to_map
                [("fullPage", VBool true); ("filename", VString "landing-page.png")])
             Demo.started 0%nat
             {| target := 1; timeouts := [] |} "landing-page.png");
    first [reflexivity | discriminate].
Defined.

Lemma append_cancel_l (p x y : string) : p +:+ x = p +:+ y -> x = y.
Proof. induction p as [| c p IH]; cbn; [auto | intros [= H]; auto]. Qed.

(** X14. [getAttribute] with string arguments on a live page, when the
    element is found and has the attribute: the text quotes the value between
    single quotes, also when the value is the empty string, and this text is
    never the text given for an absent attribute, so "present but empty" and
    "absent" can be told apart. *)
Theorem present_attribute_is_quoted E arguments st a po selector attribute elem value :
  page (srv st) = Some a ->
  pages st !! a = Some po ->
  arguments !! "selector" = Some (VString selector) ->
  arguments !! "attribute" = Some (VString attribute) ->
  FindElement E (trace st ++ [EvElement a (timeouts po) selector]) = OK elem ->
  Attribute E (trace st ++ [EvElement a (timeouts po) selector;
                            EvAttribute elem attribute]) = OK (Some value) ->
  getAttribute E arguments st
  = Returns
      (OK ("Attribute '" +:+ attribute +:+ "' on " +:+ selector
           +:+ " = '" +:+ value +:+ "'"))
      (set_trace (trace st ++ [EvElement a (timeouts po) selector;
                               EvAttribute elem attribute]) st)
  /\ "Attribute '" +:+ attribute +:+ "' on " +:+ selector +:+ " = '" +:+ value +:+ "'"
     <> "Attribute '" +:+ attribute +:+ "' not found on " +:+ selector.
Proof.
  intros Hp Ho Hsel Hattr Hfind Hval. split.
  - unfold getAttribute. rewrite Hsel, Hattr. cbn [assert_string].
    on_page Hp Ho. rewrite Hfind.
    on_page Hp Ho. now rewrite Hval.
  - intros H. apply (append_cancel_l "Attribute '") in H.
    apply append_cancel_l in H. discriminate.
Qed.

(** An attribute that is there, with the value [on]. *)
Lemma present_attribute_example :
  getAttribute Demo.chromium
    (list_to_map [("selector", VString "input"); ("attribute", VString "disabled")])
    Demo.started
  = Returns
      (OK ("Attribute '" +:+ "disabled" +:+ "' on " +:+ "input"
           +:+ " = '" +:+ "on" +:+ "'"))
      (set_trace
         (trace Demo.started
          ++ [EvElement 0 (timeouts {| target := 1; timeouts := [] |}) "input";
              EvAttribute 7 "disabled"])
         Demo.started)
  /\ "Attribute '" +:+ "disabled" +:+ "' on " +:+ "input" +:+ " = '" +:+ "on" +:+ "'"
     <> "Attribute '" +:+ "disabled" +:+ "' not found on " +:+ "input".
Proof.
  apply (present_attribute_is_quoted Demo.chromium
           (list_to_map [("selector", VString "input"); ("attribute", VString "disabled")])
           Demo.started 0%nat {| target := 1; timeouts := [] |} "input" "disabled"
           7%nat "on");
    reflexivity.
Defined.

(** ** The duration of a wait *)

Lemma wrap64_in_int64 z : in_int64 (wrap64 z).
Proof.
  unfold in_int64, wrap64.
  pose proof (Z.mod_pos_bound (z + 2 ^ 63) (2 ^ 64) ltac:(lia)). lia.
Qed.

Lemma wrap64_small z : in_int64 z -> wrap64 z = z.
Proof.
  unfold in_int64, wrap64. intros H. rewrite Z.mod_small by lia. lia.
Qed.

Lemma float64_to_int64_in_int64 x : in_int64 (float64_to_int64 x).
Proof.
  unfold float64_to_int64, in_int64, int64_min.
  destruct (Prim2SF x) as [s | s | | s m e]; try lia.
  cbv zeta.
  match goal with |- context [if ?c then _ else _] => destruct c eqn:Hc end; [| lia].
  apply andb_true_iff in Hc as [H1 H2].
  apply Z.leb_le in H1. apply Z.ltb_lt in H2. unfold int64_min in H1. lia.
Qed.

(** X15. The duration [waitFor] computes from a timeout in seconds is an
    int64 number of nanoseconds: the seconds are first cut to a whole int64,
    and the product with 10^9 is exact when it fits in an int64 and is reduced
    modulo 2^64 into the int64 range when it does not. *)
Theorem wait_duration_is_exact_or_wraps timeout :
  in_int64 (float64_to_int64 timeout)
  /\ in_int64 (seconds_to_Duration timeout)
  /\ (seconds_to_Duration timeout - float64_to_int64 timeout * time_Second)
       mod 2 ^ 64 = 0
  /\ (in_int64 (float64_to_int64 timeout * time_Second) ->
      seconds_to_Duration timeout = float64_to_int64 timeout * time_Second).
Proof.
  repeat split.
  - apply float64_to_int64_in_int64.
  - pose proof (float64_to_int64_in_int64 timeout) as H. unfold in_int64 in H. lia.
  - apply wrap64_in_int64.
  - apply wrap64_in_int64.
  - unfold seconds_to_Duration, wrap64.
    set (n := float64_to_int64 timeout * time_Second).
    rewrite (Z.mod_eq (n + 2 ^ 63) (2 ^ 64)) by lia.
    set (q := (n + 2 ^ 63) / 2 ^ 64).
    replace (n + 2 ^ 63 - 2 ^ 64 * q - 2 ^ 63 - n) with (- q * 2 ^ 64) by lia.
    apply Z.mod_mul. lia.
  - apply wrap64_small.
Qed.

(** Thirty seconds, the default. *)
Lemma wait_duration_example :
  in_int64 (float64_to_int64 30)
  /\ in_int64 (seconds_to_Duration 30)
  /\ (seconds_to_Duration 30 - float64_to_int64 30 * time_Second) mod 2 ^ 64 = 0
  /\ (in_int64 (float64_to_int64 30 * time_Second) ->
      seconds_to_Duration 30 = float64_to_int64 30 * time_Second).
Proof. apply (wait_duration_is_exact_or_wraps 30). Defined.

(** Ten billion seconds do not fit: the duration comes out negative. *)
Example wait_duration_overflow :
  seconds_to_Duration 10000000000 = - 8446744073709551616.
Proof. reflexivity. Qed.

(** ** Optional arguments, by their effect *)

(** [screenshot] on a live page, whatever its arguments. *)
Lemma screenshot_on_page E arguments st a po :
  page (srv st) = Some a ->
  pages st !! a = Some po ->
  screenshot E arguments st
  = match assert_string (arguments !! "filename") with
    | Some f =>
        if String.eqb f "" then
          screenshotOutcome E st a po [EvNow]
            (timestampName (Now_Unix E (trace st ++ [EvNow])))
            match assert_bool (arguments !! "fullPage") with
            | Some fp => fp
            | None => false
            end
        else
          screenshotOutcome E st a po [] f
            match assert_bool (arguments !! "fullPage") with
            | Some fp => fp
            | None => false
            end
    | None =>
        screenshotOutcome E st a po [EvNow]
          (timestampName (Now_Unix E (trace st ++ [EvNow])))
          match assert_bool (arguments !! "fullPage") with
          | Some fp => fp
          | None => false
          end
    end.
Proof.
  intros Hp Ho. unfold screenshot, screenshotOutcome, timestampName.
  destruct (assert_string (arguments !! "filename")) as [f |];
    [destruct (String.eqb f "") |];
    on_page Hp Ho;
    (destruct (Screenshot E _); [| reflexivity]);
    on_page Hp Ho;
    destruct (WriteFile E _); reflexivity.
Qed.

(** C10. An optional argument that is absent or of the wrong type is replaced
    by its default and the tool goes on; it raises no argument error.  On a
    live page: with a [filename] that is not a string or is the empty string,
    the clock is read and the capture goes to [screenshot_<unix time>.png];
    with a [fullPage] that is not a boolean, the page is captured with
    [fullPage] false; with a [timeout] that is not a number, the wait is made
    with 30 seconds: the page object made for it carries 30 * 10^9
    nanoseconds and the failure message quotes 30.  The only errors that can
    come out are those of the capture, of the write and of the lookup.  In
    any state, each such run is the run with the default passed explicitly. *)
Theorem mistyped_optional_arguments_take_defaults E arguments st :
  ((assert_string (arguments !! "filename") = None
    \/ arguments !! "filename" = Some (VString "") ->
    screenshot E arguments st
    = (n <- time_Now_Unix E ;;
       screenshot E (<["filename" := VString (timestampName n)]> arguments)) st)
   /\ (assert_bool (arguments !! "fullPage") = None ->
       screenshot E arguments st
       = screenshot E (<["fullPage" := VBool false]> arguments) st)
   /\ (assert_float64 (arguments !! "timeout") = None ->
       waitFor E arguments st
       = waitFor E (<["timeout" := VFloat64 30]> arguments) st))
  /\ forall a po,
      page (srv st) = Some a ->
      pages st !! a = Some po ->
      (assert_string (arguments !! "filename") = None
       \/ arguments !! "filename" = Some (VString "") ->
       screenshot E arguments st
       = screenshotOutcome E st a po [EvNow]
           (timestampName (Now_Unix E (trace st ++ [EvNow])))
           match assert_bool (arguments !! "fullPage") with
           | Some fp => fp
           | None => false
           end)
      /\ (assert_bool (arguments !! "fullPage") = None ->
          exists clock filename,
            screenshot E arguments st
            = screenshotOutcome E st a po clock filename false)
      /\ (assert_float64 (arguments !! "timeout") = None ->
          forall selector,
            assert_string (arguments !! "selector") = Some selector ->
            waitFor E arguments st
            = waitOutcome E st a po selector 30 30000000000).
Proof.
  split.
  { split; [| split].
    - apply screenshot_default_filename.
    - apply screenshot_default_fullPage.
    - apply waitFor_default_timeout. }
  intros a po Hp Ho. split; [| split].
  - intros H. rewrite (screenshot_on_page E arguments st a po Hp Ho).
    destruct H as [-> | ->]; reflexivity.
  - intros H. rewrite (screenshot_on_page E arguments st a po Hp Ho), H.
    destruct (assert_string (arguments !! "filename")) as [f |];
      [destruct (String.eqb f "") |]; eauto.
  - intros H selector Hsel.
    destruct (waitFor_lookup_context E arguments st a po selector Hp Ho Hsel)
      as [Hw _].
    rewrite H in Hw. exact Hw.
Qed.

(** A number as [filename] with a string as [fullPage], and a string as
    [timeout], on a live page. *)
Lemma mistyped_optional_arguments_example :
  screenshot Demo.chromium
    (list_to_map [("filename", VFloat64 7); ("fullPage", VString "yes")])
    Demo.started
  = Returns (OK "Screenshot saved to /tmp/rod-screenshots/screenshot_1700000000.png")
      (set_trace
         (trace Demo.started
          ++ [EvNow; EvMkdirAll "/tmp/rod-screenshots" mode_0755;
              EvScreenshot 0 [] false;
              EvWriteFile "/tmp/rod-screenshots/screenshot_1700000000.png" "PNG"
                mode_0644])
         Demo.started)
  /\ waitFor Demo.chromium
       (list_to_map [("selector", VString "##"); ("timeout", VString "soon")])
       Demo.started
     = Returns (Fail "element ## did not appear within 30 seconds")
         {| srv := srv Demo.started;
            pages := [ {| target := 1; timeouts := [] |};
                       {| target := 1; timeouts := [30000000000] |};
                       {| target := 1; timeouts := [0] |} ];
            trace := trace Demo.started ++ [EvElement 0 [] "##"];
            stdout := [] |}.
Proof.
  destruct (mistyped_optional_arguments_take_defaults Demo.chromium
              (list_to_map [("filename", VFloat64 7); ("fullPage", VString "yes")])
              Demo.started) as (_ & Hshot).
  destruct (Hshot 0%nat {| target := 1; timeouts := [] |} eq_refl eq_refl)
    as (Hname & _ & _).
  destruct (mistyped_optional_arguments_take_defaults Demo.chromium
              (list_to_map [("selector", VString "##"); ("timeout", VString "soon")])
              Demo.started) as (_ & Hwait).
  destruct (Hwait 0%nat {| target := 1; timeouts := [] |} eq_refl eq_refl)
    as (_ & _ & Htimeout).
  split.
  - rewrite Hname by (left; reflexivity). reflexivity.
  - rewrite (Htimeout eq_refl "##" eq_refl). reflexivity.
Defined.
